(** * tag_validation: the struct-tag validator, embedded and verified

    The Go package [validation] (validator.go) walks the fields of a
    struct by reflection, reads each field's [validate:"kind:param"] tag
    and runs one of five checkers ([len], [in], [min], [max], [between])
    on the field's value.  This file embeds the package as Rocq
    functions and proves properties of it.

    Layout: the slice of the Go runtime and standard library that the
    package relies on ([strings.Split], [strconv.Atoi], [fmt] with one
    [%d] verb, the [reflect] accessors), then the package itself, then
    the theorems. *)

From Stdlib Require Import ZArith List String Ascii Bool Lia Permutation.
From Stdlib Require Import DecimalString Setoid.
Import ListNotations.

Local Open Scope string_scope.
Local Open Scope list_scope.
Local Open Scope Z_scope.

(* ================================================================== *)
(** ** Panics and the outcome of a call *)

(** The run-time panics the package can raise. *)
Inductive Panic : Type :=
| IndexOutOfRange (index len : nat)   (* slice index past the end *)
| NilDereference                      (* method call on a nil interface *)
| ValueError (method : string).       (* reflect accessor on the wrong Kind *)

(** A Go call either returns or panics. *)
Inductive Outcome (A : Type) : Type :=
| Returns (a : A)
| Panics (p : Panic).

Arguments Returns {A} a.
Arguments Panics {A} p.

Definition bind {A B : Type} (m : Outcome A) (k : A -> Outcome B) : Outcome B :=
  match m with
  | Returns a => k a
  | Panics p => Panics p
  end.

Notation "x <- m ;; k" := (bind m (fun x => k))
  (at level 61, m at next level, right associativity).

(** [len(s)] of a Go string: its number of bytes. *)
Definition len (s : string) : Z := Z.of_nat (String.length s).

(* ================================================================== *)
(** ** package strings *)

Module strings.

(** [strings.Split(s, sep)] for a one-byte separator, the only way the
    package calls it ([":"] and [","]).  The result always has one more
    part than [s] has separators; in particular [Split "" sep = [""]]. *)
Fixpoint Split (s : string) (sep : ascii) : list string :=
  match s with
  | EmptyString => [EmptyString]
  | String c rest =>
      if Ascii.eqb c sep then EmptyString :: Split rest sep
      else match Split rest sep with
           | part :: parts => String c part :: parts
           | [] => [String c EmptyString]
           end
  end.

End strings.

(* ================================================================== *)
(** ** package strconv *)

Module strconv.

(** The two causes a [*NumError] carries. *)
Inductive NumError : Type := ErrSyntax | ErrRange.

(** [int] is 64 bits wide. *)
Definition intSize : Z := 64.

(** Value of a decimal digit byte, if it is one. *)
Definition digit (c : ascii) : option Z :=
  let n := Z.of_N (N_of_ascii c) in
  if (48 <=? n) && (n <=? 57) then Some (n - 48) else None.

Definition maxUint64 : Z := 2 ^ 64 - 1.

(** The digit loop of [ParseUint(s, 10, 64)]: it stops with a range
    error as soon as the accumulator leaves 64 bits, before looking at
    the bytes that follow. *)
Fixpoint parseUintLoop (s : string) (n : Z) : Z * option NumError :=
  match s with
  | EmptyString => (n, None)
  | String c rest =>
      match digit c with
      | None => (0, Some ErrSyntax)
      | Some d =>
          if maxUint64 / 10 + 1 <=? n then (maxUint64, Some ErrRange)
          else
            let n1 := n * 10 + d in
            if maxUint64 <? n1 then (maxUint64, Some ErrRange)
            else parseUintLoop rest n1
      end
  end.

Definition ParseUint (s : string) : Z * option NumError :=
  match s with
  | EmptyString => (0, Some ErrSyntax)
  | _ => parseUintLoop s 0
  end.

(** [ParseInt(s, 10, 0)]: optional sign, then [ParseUint]; a magnitude
    outside [int] is clamped and reported as a range error. *)
Definition ParseInt (s0 : string) : Z * option NumError :=
  match s0 with
  | EmptyString => (0, Some ErrSyntax)
  | String c rest =>
      let neg := Ascii.eqb c "-" in
      let s := if Ascii.eqb c "+" || neg then rest else s0 in
      let (un, err) := ParseUint s in
      match err with
      | Some ErrSyntax => (0, Some ErrSyntax)
      | _ =>
          let cutoff := 2 ^ (intSize - 1) in
          if negb neg && (cutoff <=? un) then (cutoff - 1, Some ErrRange)
          else if neg && (cutoff <? un) then (- cutoff, Some ErrRange)
          else ((if neg then - un else un), None)
      end
  end.

(** The loop of [Atoi]'s fast path. *)
Fixpoint atoiLoop (s : string) (n : Z) : Z * option NumError :=
  match s with
  | EmptyString => (n, None)
  | String ch rest =>
      match digit ch with
      | None => (0, Some ErrSyntax)
      | Some d => atoiLoop rest (n * 10 + d)
      end
  end.

(** [strconv.Atoi]: the value and the error ([None] is a nil error).
    On a syntax error the value is 0, on a range error it is the
    nearest bound of [int]. *)
Definition Atoi (s0 : string) : Z * option NumError :=
  let sLen := len s0 in
  if (0 <? sLen) && (sLen <? 19) then
    match s0 with
    | EmptyString => (0, Some ErrSyntax)
    | String c rest =>
        let signed := Ascii.eqb c "-" || Ascii.eqb c "+" in
        let s := if signed then rest else s0 in
        if signed && (len s <? 1) then (0, Some ErrSyntax)
        else
          match atoiLoop s 0 with
          | (n, None) => ((if Ascii.eqb c "-" then - n else n), None)
          | (_, Some e) => (0, Some e)
          end
    end
  else ParseInt s0.

End strconv.

(* ================================================================== *)
(** ** package fmt *)

Module fmt.

(** Decimal text of a slice index. *)
Definition decimal (i : nat) : string := NilZero.string_of_uint (Nat.to_uint i).

(** [fmt.Sprintf(format, i)] for a format whose only verb is one [%d],
    as in every format of the package. *)
Fixpoint Sprintf (format : string) (i : nat) : string :=
  match format with
  | EmptyString => EmptyString
  | String "%" (String "d" rest) => (decimal i ++ rest)%string
  | String c rest => String c (Sprintf rest i)
  end.

End fmt.

(* ================================================================== *)
(** ** package reflect *)

Module reflect.

(** What [v.Interface()] holds, as a type switch over [string], [int],
    [[]string] and [[]int] sees it: a value of exactly one of these
    four types, or something else (another type, or a nil interface). *)
Inductive Dynamic : Type :=
| dyn_string (s : string)
| dyn_int (n : Z)
| dyn_strings (slice : list string)
| dyn_ints (slice : list Z)
| dyn_other.

(** The [reflect.Value] of a struct field.  [boxed = None]: the field
    is declared with the very type of [content].  [boxed = Some t]: the
    field is declared with the interface type [t] (printed as
    [interface {}] for [any]) and currently holds [content]; then
    [v.Kind()] is [Interface], yet [v.Interface()] unwraps to what is
    held. *)
Record Value : Type := mkValue {
  boxed : option string;
  content : Dynamic
}.

(** [v.Interface()]. *)
Definition Interface (v : Value) : Dynamic := content v.

(** [v.String()]: the text when the Kind is [String]; for any other
    Kind it does not panic but yields ["<T Value>"] for the declared
    type [T].  The package calls it only where the type switch has
    matched [string], so [T] is an interface type in that case. *)
Definition String_ (v : Value) : string :=
  match boxed v, content v with
  | Some t, _ => ("<" ++ t ++ " Value>")%string
  | None, dyn_string s => s
  | None, dyn_int _ => "<int Value>"
  | None, dyn_strings _ => "<[]string Value>"
  | None, dyn_ints _ => "<[]int Value>"
  | None, dyn_other => "<T Value>"
  end.

(** [v.Int()]: panics unless the Kind is an integer kind.  The package
    calls it only where the type switch has matched [int]. *)
Definition Int (v : Value) : Outcome Z :=
  match boxed v, content v with
  | None, dyn_int n => Returns n
  | _, _ => Panics (ValueError "reflect.Value.Int")
  end.

(** [reflect.Kind]. *)
Inductive Kind : Type :=
| Invalid | Bool
| KInt | Int8 | Int16 | Int32 | Int64
| Uint | Uint8 | Uint16 | Uint32 | Uint64 | Uintptr
| Float32 | Float64 | Complex64 | Complex128
| Array | Chan | Func | KInterface | Map | Pointer | Slice | KString
| Struct | UnsafePointer.

(** A struct tag in its conventional form, a sequence of
    [key:"value"] pairs. *)
Definition StructTag : Type := list (string * string).

(** [tag.Lookup(key)]: the value of the first pair with that key. *)
Fixpoint Lookup (tag : StructTag) (key : string) : option string :=
  match tag with
  | [] => None
  | (k, v) :: rest => if String.eqb k key then Some v else Lookup rest key
  end.

(** [reflect.StructField], the members the package reads. *)
Record StructField : Type := mkStructField {
  Name : string;
  PkgPath : string;   (* empty exactly for exported fields *)
  Tag : StructTag
}.

Definition IsExported (f : StructField) : bool := String.eqb (PkgPath f) "".

End reflect.

(** A field of a struct value: [vType.Field(i)] with [vValue.Field(i)]. *)
Record Field : Type := mkField {
  decl : reflect.StructField;
  val : reflect.Value
}.

(** The argument of [Validate], of static type [any]: the nil interface,
    or a value of some Kind ([fields] lists the fields, in declaration
    order, when the Kind is [Struct]). *)
Inductive any : Type :=
| nil_any
| value (k : reflect.Kind) (fields : list Field).

(** [reflect.TypeOf(v).Kind()]: [TypeOf(nil)] is a nil [Type], and the
    method call on it dereferences nil. *)
Definition TypeOf_Kind (v : any) : Outcome reflect.Kind :=
  match v with
  | nil_any => Panics NilDereference
  | value k _ => Returns k
  end.

Definition fieldsOf (v : any) : list Field :=
  match v with
  | nil_any => []
  | value _ fs => fs
  end.

(* ================================================================== *)
(** ** Iteration over a Go map *)

(** Go leaves the order of [range] over a map unspecified, and it may
    differ from one loop to the next.  The runtime's choice is made
    explicit: a [MapOrder] receives the keys of the map and returns the
    order in which the loop visits them. *)
Definition MapOrder : Type := list string -> list string.

(** An order the runtime may really pick visits each key once. *)
Definition fair (ord : MapOrder) : Prop :=
  forall keys, Permutation (ord keys) keys.

(** One [MapOrder] per field index: the orders of one call of
    [Validate]. *)
Definition Schedule : Type := nat -> MapOrder.

Definition fairSchedule (rt : Schedule) : Prop := forall i, fair (rt i).

(** [m[key] = struct{}{}] on a [map[string]struct{}], the map kept as
    the list of its distinct keys. *)
Definition insertKey (m : list string) (key : string) : list string :=
  if existsb (String.eqb key) m then m else m ++ [key].

(** [_, ok := m[key]]. *)
Definition hasKey (m : list string) (key : string) : bool :=
  existsb (String.eqb key) m.

(** The same for [map[int]struct{}]. *)
Definition insertInt (m : list Z) (key : Z) : list Z :=
  if existsb (Z.eqb key) m then m else m ++ [key].

Definition hasInt (m : list Z) (key : Z) : bool := existsb (Z.eqb key) m.

(* ================================================================== *)
(** ** package validation: errors *)

(** The [*fundamental] errors of github.com/pkg/errors that the package
    creates.  The three package-level variables are compared by identity
    ([errors.Is]), so each is a constructor of its own; [New] and
    [Errorf] stand for the errors created on the spot, [Errorf] keeping
    its format and its slice index apart. *)
Inductive fundamental : Type :=
| ErrNotStruct
| ErrInvalidValidatorSyntax
| ErrValidateForUnexportedFields
| New (msg : string)
| Errorf (format : string) (i : nat).

(** The method [Error] of a [fundamental]: its message. *)
Definition fundamental_Error (e : fundamental) : string :=
  match e with
  | ErrNotStruct => "wrong argument given, should be a struct"
  | ErrInvalidValidatorSyntax => "invalid validator syntax"
  | ErrValidateForUnexportedFields => "validation for unexported field is not allowed"
  | New msg => msg
  | Errorf format i => fmt.Sprintf format i
  end.

(** [type ValidationError struct { Err error }]; every [ValidationError]
    the package builds wraps a [*fundamental]. *)
Record ValidationError : Type := mkValidationError { Err : fundamental }.

(** [func (ve ValidationError) Error() string]. *)
Definition ValidationError_Error (ve : ValidationError) : string :=
  fundamental_Error (Err ve).

(** [type ValidationErrors []ValidationError]. *)
Definition ValidationErrors : Type := list ValidationError.

(** [func (vs ValidationErrors) Error() string]: the loop
    [res = res + v.Err.Error()]. *)
Definition ValidationErrors_Error (vs : ValidationErrors) : string :=
  fold_left (fun res v => (res ++ fundamental_Error (Err v))%string) vs "".

(** A non-nil value of the interface type [error], by dynamic type. *)
Inductive error : Type :=
| Fundamental (e : fundamental)
| IsValidationError (ve : ValidationError)
| IsValidationErrors (vs : ValidationErrors).

(** [err.Error()]. *)
Definition Error (err : error) : string :=
  match err with
  | Fundamental e => fundamental_Error e
  | IsValidationError ve => ValidationError_Error ve
  | IsValidationErrors vs => ValidationErrors_Error vs
  end.

(** What a checker returns: [(bool, error)], [None] being nil. *)
Definition Verdict : Type := (bool * option error)%type.

Definition pass : Verdict := (true, None).

(** [return false, ValidationError{e}]. *)
Definition reject (e : fundamental) : Verdict :=
  (false, Some (IsValidationError (mkValidationError e))).

(* ================================================================== *)
(** ** package validation: the checkers *)

(** The loop shared by every slice branch:
    [for i, elem := range slice { if bad(elem) { return false,
    ValidationError{errors.Errorf(format, i)} } }; return true, nil]. *)
Fixpoint rangeSlice {A : Type} (bad : A -> bool) (format : string)
    (i : nat) (slice : list A) : Verdict :=
  match slice with
  | [] => pass
  | elem :: rest =>
      if bad elem then reject (Errorf format i)
      else rangeSlice bad format (S i) rest
  end.

Definition validateLen (v : reflect.Value) (value : string) : Outcome Verdict :=
  let (expected, err) := strconv.Atoi value in
  match err with
  | Some _ => Returns (reject ErrInvalidValidatorSyntax)
  | None =>
      match reflect.Interface v with
      | reflect.dyn_string _ =>
          if negb (len (reflect.String_ v) =? expected)
          then Returns (reject (New "lengths don't match"))
          else Returns pass
      | reflect.dyn_strings slice =>
          Returns (rangeSlice (fun elem => negb (len elem =? expected))
                     "The string on position %d is shorter than allowed" 0 slice)
      | _ => Returns (reject ErrInvalidValidatorSyntax)
      end
  end.

(** [for _, elem := range tokens { tokensSet[elem] = struct{}{} }]. *)
Definition makeTokensSet (tokens : list string) : list string :=
  fold_left insertKey tokens [].

(** The [int] branch of [validateIn]: the keys in the order of the
    [range]; each key is parsed when the loop reaches it, and a match
    returns at once. *)
Fixpoint inIntLoop (v : reflect.Value) (keys : list string) : Outcome Verdict :=
  match keys with
  | [] => Returns (reject (New "Field value isn't allowed"))
  | key :: rest =>
      let (val, err) := strconv.Atoi key in
      match err with
      | Some _ => Returns (reject ErrInvalidValidatorSyntax)
      | None =>
          n <- reflect.Int v ;;
          if val =? n then Returns pass else inIntLoop v rest
      end
  end.

(** The first loop of the [[]int] branch: every key is parsed into
    [tokensSetInt] before any element is looked at; [None] when a key
    does not parse. *)
Fixpoint makeTokensSetInt (keys : list string) (tokensSetInt : list Z) : option (list Z) :=
  match keys with
  | [] => Some tokensSetInt
  | elem :: rest =>
      let (elemInt, err) := strconv.Atoi elem in
      match err with
      | Some _ => None
      | None => makeTokensSetInt rest (insertInt tokensSetInt elemInt)
      end
  end.

Definition validateIn (ord : MapOrder) (v : reflect.Value) (value : string)
    : Outcome Verdict :=
  if len value =? 0 then Returns (reject (New "Field value isn't allowed"))
  else
    let tokens := strings.Split value "," in
    let tokensSet := makeTokensSet tokens in
    match reflect.Interface v with
    | reflect.dyn_string _ =>
        if hasKey tokensSet (reflect.String_ v) then Returns pass
        else Returns (reject (New "Field value isn't allowed"))
    | reflect.dyn_int _ => inIntLoop v (ord tokensSet)
    | reflect.dyn_strings slice =>
        Returns (rangeSlice (fun elem => negb (hasKey tokensSet elem))
                   "The string on position %d is not allowed" 0 slice)
    | reflect.dyn_ints slice =>
        match makeTokensSetInt (ord tokensSet) [] with
        | None => Returns (reject ErrInvalidValidatorSyntax)
        | Some tokensSetInt =>
            Returns (rangeSlice (fun elem => negb (hasInt tokensSetInt elem))
                       "The integer on position %d is less than allowed" 0 slice)
        end
    | reflect.dyn_other => Returns (reject ErrInvalidValidatorSyntax)
    end.

Definition validateMin (v : reflect.Value) (value : string) : Outcome Verdict :=
  let (min, err) := strconv.Atoi value in
  match err with
  | Some _ => Returns (reject ErrInvalidValidatorSyntax)
  | None =>
      match reflect.Interface v with
      | reflect.dyn_string _ =>
          if min <=? len (reflect.String_ v) then Returns pass
          else Returns (reject (New "String length is less than allowed"))
      | reflect.dyn_int _ =>
          n <- reflect.Int v ;;
          if min <=? n then Returns pass
          else Returns (reject (New "Integer is less than allowed"))
      | reflect.dyn_ints slice =>
          Returns (rangeSlice (fun elem => elem <? min)
                     "The integer on position %d is less than allowed" 0 slice)
      | reflect.dyn_strings slice =>
          Returns (rangeSlice (fun elem => len elem <? min)
                     "The string on position %d is shorter than allowed" 0 slice)
      | reflect.dyn_other => Returns (reject ErrInvalidValidatorSyntax)
      end
  end.

(** [limits[i]]: indexing a slice panics past its end. *)
Definition index (limits : list string) (i : nat) : Outcome string :=
  match nth_error limits i with
  | Some s => Returns s
  | None => Panics (IndexOutOfRange i (List.length limits))
  end.

(** [validateBetween].  Both [Atoi] calls assign the same variable
    [err], so the test [err != nil] that follows sees only the error of
    the second call; the first limit keeps whatever value [Atoi] gave
    it. *)
Definition validateBetween (v : reflect.Value) (value : string) : Outcome Verdict :=
  let limits := strings.Split value "," in
  limit0 <- index limits 0 ;;
  let (min, _) := strconv.Atoi limit0 in
  limit1 <- index limits 1 ;;
  let (max, err) := strconv.Atoi limit1 in
  match err with
  | Some _ => Returns (reject ErrInvalidValidatorSyntax)
  | None =>
      match reflect.Interface v with
      | reflect.dyn_string _ =>
          if (min <=? len (reflect.String_ v)) && (len (reflect.String_ v) <=? max)
          then Returns pass
          else Returns (reject (New "String length is not allowed"))
      | reflect.dyn_int _ =>
          n <- reflect.Int v ;;
          if (min <=? n) && (n <=? max) then Returns pass
          else Returns (reject (New "Integer is more than allowed"))
      | reflect.dyn_ints slice =>
          Returns (rangeSlice (fun elem => (max <? elem) || (elem <? min))
                     "The integer on position %d is more than allowed" 0 slice)
      | reflect.dyn_strings slice =>
          Returns (rangeSlice (fun elem => (max <? len elem) || (len elem <? min))
                     "The string on position %d is longer than allowed" 0 slice)
      | reflect.dyn_other => Returns (reject ErrInvalidValidatorSyntax)
      end
  end.

Definition validateMax (v : reflect.Value) (value : string) : Outcome Verdict :=
  let (max, err) := strconv.Atoi value in
  match err with
  | Some _ => Returns (reject ErrInvalidValidatorSyntax)
  | None =>
      match reflect.Interface v with
      | reflect.dyn_string _ =>
          if len (reflect.String_ v) <=? max then Returns pass
          else Returns (reject (New "String length is more than allowed"))
      | reflect.dyn_int _ =>
          n <- reflect.Int v ;;
          if n <=? max then Returns pass
          else Returns (reject (New "Integer is more than allowed"))
      | reflect.dyn_ints slice =>
          Returns (rangeSlice (fun elem => max <? elem)
                     "The integer on position %d is more than allowed" 0 slice)
      | reflect.dyn_strings slice =>
          Returns (rangeSlice (fun elem => max <? len elem)
                     "The string on position %d is longer than allowed" 0 slice)
      | reflect.dyn_other => Returns (reject ErrInvalidValidatorSyntax)
      end
  end.

(* ================================================================== *)
(** ** package validation: Validate *)

(** A checker, as stored in the map [validators]. *)
Definition Checker : Type := reflect.Value -> string -> Outcome Verdict.

(** [validators[name]] once the five entries are set; [ord] is the order
    the runtime picks for the map loop of [validateIn]. *)
Definition validators (ord : MapOrder) (name : string) : option Checker :=
  if String.eqb name "len" then Some validateLen
  else if String.eqb name "in" then Some (validateIn ord)
  else if String.eqb name "min" then Some validateMin
  else if String.eqb name "max" then Some validateMax
  else if String.eqb name "between" then Some validateBetween
  else None.

(** How one turn of the loop over the fields ends: it goes on to the
    next field with the errors collected so far ([continue], or the end
    of the body), or it leaves [Validate] with [return err]. *)
Inductive Step : Type :=
| Continue (vs : ValidationErrors)
| Return (err : option error).

(** The body of the loop, for the field [f]. *)
Definition fieldBody (ord : MapOrder) (f : Field) (vs : ValidationErrors)
    : Outcome Step :=
  match reflect.Lookup (reflect.Tag (decl f)) "validate" with
  | None => Returns (Continue vs)
  | Some tagValue =>
      if negb (reflect.IsExported (decl f)) then
        Returns (Continue (vs ++ [mkValidationError ErrValidateForUnexportedFields]))
      else
        match strings.Split tagValue ":" with
        | [rule0; rule1] =>
            match validators ord rule0 with
            | None =>
                Returns (Continue (vs ++ [mkValidationError (New "Unexpected validator option")]))
            | Some validator =>
                r <- validator (val f) rule1 ;;
                let (ok, err) := (r : Verdict) in
                if ok then Returns (Continue vs)
                else
                  match err with
                  | Some (IsValidationError validationErr) =>
                      Returns (Continue (vs ++ [validationErr]))
                  | _ => Returns (Return err)
                  end
            end
        | _ => Returns (Continue (vs ++ [mkValidationError ErrInvalidValidatorSyntax]))
        end
  end.

(** [for i := 0; i < vType.NumField(); i++ { ... }] from index [i] on,
    followed by the final test on [len(vs)]. *)
Fixpoint validateFields (rt : Schedule) (i : nat) (fields : list Field)
    (vs : ValidationErrors) : Outcome (option error) :=
  match fields with
  | [] =>
      match vs with
      | [] => Returns None
      | _ => Returns (Some (IsValidationErrors vs))
      end
  | f :: rest =>
      step <- fieldBody (rt i) f vs ;;
      match step with
      | Continue vs' => validateFields rt (S i) rest vs'
      | Return err => Returns err
      end
  end.

(** [func Validate(v any) error]; [None] is the nil error. *)
Definition Validate (rt : Schedule) (v : any) : Outcome (option error) :=
  k <- TypeOf_Kind v ;;
  match k with
  | reflect.Struct => validateFields rt 0 (fieldsOf v) []
  | _ => Returns (Some (Fundamental ErrNotStruct))
  end.

(* ================================================================== *)
(** ** Vocabulary of the statements *)

(** Whether the byte [c] occurs in [s]. *)
Fixpoint occurs (c : ascii) (s : string) : bool :=
  match s with
  | EmptyString => false
  | String c' rest => Ascii.eqb c' c || occurs c rest
  end.

(** What one field adds to the aggregate: nothing, or one error. *)
Definition entry (c : option ValidationError) : ValidationErrors :=
  match c with
  | Some ve => [ve]
  | None => []
  end.

(** The value [Validate] returns for the errors it has collected. *)
Definition aggregate (vs : ValidationErrors) : option error :=
  match vs with
  | [] => None
  | _ => Some (IsValidationErrors vs)
  end.

(** The fields of a struct paired with their indices, from [i] on. *)
Definition indexed (i : nat) (fields : list Field) : list (nat * Field) :=
  combine (seq i (List.length fields)) fields.

(** A field declared with one of the four supported types, exported and
    tagged [validate:"tag"]. *)
Definition tagged (name tag : string) (boxed : option string)
    (d : reflect.Dynamic) : Field :=
  mkField (reflect.mkStructField name "" [("validate", tag)])
          (reflect.mkValue boxed d).

(** A verdict is well formed when it is [true, nil] or [false] with a
    [ValidationError]. *)
Definition wellFormed (r : Verdict) : Prop :=
  r = pass \/ exists e, r = reject e.


(** A token that [Atoi] accepts. *)
Definition parses (token : string) : bool :=
  match snd (strconv.Atoi token) with
  | None => true
  | Some _ => false
  end.

(** A field is steady when, if it is an [int] under an in rule, every
    token of the rule parses. *)
Definition steady (f : Field) : Prop :=
  forall (tagValue value : string) (n : Z),
    reflect.Lookup (reflect.Tag (decl f)) "validate" = Some tagValue ->
    strings.Split tagValue ":" = ["in"; value] ->
    reflect.Interface (val f) = reflect.dyn_int n ->
    forallb parses (makeTokensSet (strings.Split value ",")) = true.

(** A field on which no checker can panic: an [int] is declared as
    such, not held in an interface, and the parameter of a between rule
    has a comma. *)
Definition safeField (f : Field) : Prop :=
  (forall n, reflect.Interface (val f) = reflect.dyn_int n ->
             reflect.boxed (val f) = None) /\
  (forall tagValue value,
     reflect.Lookup (reflect.Tag (decl f)) "validate" = Some tagValue ->
     strings.Split tagValue ":" = ["between"; value] ->
     occurs "," value = true).

(** How many times the byte [c] occurs in [s]. *)
Fixpoint count (c : ascii) (s : string) : nat :=
  match s with
  | EmptyString => O
  | String c' rest => if Ascii.eqb c' c then S (count c rest) else count c rest
  end.

(** The names under which [Validate] registers a checker. *)
Definition registered : list string := ["len"; "in"; "min"; "max"; "between"].

(** The errors held by what [Validate] returned. *)
Definition errorsOf (r : option error) : ValidationErrors :=
  match r with
  | Some (IsValidationErrors vs) => vs
  | _ => []
  end.

(** A field that [Validate] lets through: it has no tag, or it is
    exported, its tag has the two parts of a rule, the first part names
    a checker and the checker passes on the second part. *)
Definition accepted (ord : MapOrder) (f : Field) : Prop :=
  reflect.Lookup (reflect.Tag (decl f)) "validate" = None \/
  exists tagValue name param validator,
    reflect.Lookup (reflect.Tag (decl f)) "validate" = Some tagValue /\
    reflect.IsExported (decl f) = true /\
    strings.Split tagValue ":" = [name; param] /\
    validators ord name = Some validator /\
    validator (val f) param = Returns pass.

(** The schedule of the fields from index [n] on. *)
Definition shift (n : nat) (rt : Schedule) : Schedule := fun i => rt (n + i)%nat.

(** Two orders a map loop may take: the keys as stored, and reversed. *)
Definition stored : MapOrder := fun keys => keys.
Definition reversed : MapOrder := fun keys => rev keys.

(* ================================================================== *)
(** * Theorems *)

(** ** strings.Split *)

Lemma Split_not_nil (s : string) (sep : ascii) : strings.Split s sep <> [].
Proof.
  destruct s as [|c rest]; simpl; [discriminate|].
  destruct (Ascii.eqb c sep); [discriminate|].
  destruct (strings.Split rest sep); discriminate.
Qed.

(** A string without the separator is the single part of its split. *)
Lemma Split_without_sep (s : string) (sep : ascii) :
  occurs sep s = false -> strings.Split s sep = [s].
Proof.
  induction s as [|c rest IH]; simpl; intros H; [reflexivity|].
  apply orb_false_iff in H as [Hc Hrest].
  rewrite Hc, (IH Hrest). reflexivity.
Qed.

(** The first part ends at the first separator. *)
Lemma Split_first_part (a rest : string) (sep : ascii) :
  occurs sep a = false ->
  strings.Split (a ++ String sep rest) sep = a :: strings.Split rest sep.
Proof.
  induction a as [|c a IH]; simpl; intros H.
  - rewrite Ascii.eqb_refl. reflexivity.
  - apply orb_false_iff in H as [Hc Ha].
    rewrite Hc, (IH Ha). reflexivity.
Qed.

(** ** The slice loop *)

Lemma reject_not_pass (e : fundamental) : reject e <> pass.
Proof. discriminate. Qed.

(** The loop ends in [pass] or in a position error. *)
Lemma rangeSlice_cases {A : Type} (bad : A -> bool) (format : string)
    (slice : list A) (i : nat) :
  rangeSlice bad format i slice = pass \/
  exists j, rangeSlice bad format i slice = reject (Errorf format j).
Proof.
  revert i. induction slice as [|elem rest IH]; intros i; simpl.
  - now left.
  - destruct (bad elem); [right; now exists i | apply IH].
Qed.

(** The loop over a one-element slice tells whether the element is bad. *)
Lemma rangeSlice_single {A : Type} (bad : A -> bool) (format format' : string)
    (x : A) (i j : nat) :
  rangeSlice bad format i [x] = reject (Errorf format' j) ->
  bad x = true /\ format' = format.
Proof.
  simpl. destruct (bad x); [|discriminate].
  unfold reject. intros H. injection H as Hf _. now split.
Qed.


(** ** What a checker can return *)

Lemma wellFormed_pass : wellFormed pass.
Proof. now left. Qed.

Lemma wellFormed_reject (e : fundamental) : wellFormed (reject e).
Proof. right. now exists e. Qed.

Lemma wellFormed_rangeSlice {A : Type} (bad : A -> bool) (format : string)
    (slice : list A) (i : nat) :
  wellFormed (rangeSlice bad format i slice).
Proof.
  destruct (rangeSlice_cases bad format slice i) as [H | [j H]]; rewrite H.
  - apply wellFormed_pass.
  - apply wellFormed_reject.
Qed.

Create HintDb verdict.

#[local] Hint Resolve wellFormed_pass wellFormed_reject wellFormed_rangeSlice : verdict.

(** Closes [m = Returns r -> wellFormed r] once [m] is a known return,
    after splitting on the tests that [m] still contains. *)
Ltac returned :=
  repeat match goal with
    | |- bind (reflect.Int ?v) _ = _ -> _ =>
        destruct (reflect.Int v); simpl
    | |- context [if ?b then _ else _] => destruct b
    end;
  let H := fresh in
  intros H; first [discriminate H | injection H as <-; auto with verdict].

Lemma inIntLoop_wellFormed (v : reflect.Value) (keys : list string) (r : Verdict) :
  inIntLoop v keys = Returns r -> wellFormed r.
Proof.
  induction keys as [|key rest IH]; simpl.
  - returned.
  - destruct (strconv.Atoi key) as [val [e|]]; [returned|].
    destruct (reflect.Int v) as [n|p]; simpl; [|discriminate].
    destruct (val =? n); [returned | exact IH].
Qed.

Lemma validateLen_wellFormed (v : reflect.Value) (value : string) (r : Verdict) :
  validateLen v value = Returns r -> wellFormed r.
Proof.
  unfold validateLen.
  destruct (strconv.Atoi value) as [expected [e|]]; [returned|].
  destruct (reflect.Interface v); returned.
Qed.

Lemma validateIn_wellFormed (ord : MapOrder) (v : reflect.Value)
    (value : string) (r : Verdict) :
  validateIn ord v value = Returns r -> wellFormed r.
Proof.
  unfold validateIn.
  destruct (len value =? 0); [returned|].
  destruct (reflect.Interface v); try returned.
  - apply inIntLoop_wellFormed.
  - destruct (makeTokensSetInt _ _); returned.
Qed.

Lemma validateMin_wellFormed (v : reflect.Value) (value : string) (r : Verdict) :
  validateMin v value = Returns r -> wellFormed r.
Proof.
  unfold validateMin.
  destruct (strconv.Atoi value) as [min [e|]]; [returned|].
  destruct (reflect.Interface v); returned.
Qed.

Lemma validateMax_wellFormed (v : reflect.Value) (value : string) (r : Verdict) :
  validateMax v value = Returns r -> wellFormed r.
Proof.
  unfold validateMax.
  destruct (strconv.Atoi value) as [max [e|]]; [returned|].
  destruct (reflect.Interface v); returned.
Qed.

Lemma validateBetween_wellFormed (v : reflect.Value) (value : string) (r : Verdict) :
  validateBetween v value = Returns r -> wellFormed r.
Proof.
  unfold validateBetween.
  destruct (index _ 0) as [limit0|p]; simpl; [|discriminate].
  destruct (strconv.Atoi limit0) as [min _].
  destruct (index _ 1) as [limit1|p]; simpl; [|discriminate].
  destruct (strconv.Atoi limit1) as [max [e|]]; [returned|].
  destruct (reflect.Interface v); returned.
Qed.

(** The dispatch table holds exactly the five checkers. *)
Lemma validators_cases (ord : MapOrder) (name : string) (validator : Checker) :
  validators ord name = Some validator ->
  validator = validateLen \/ validator = validateIn ord \/
  validator = validateMin \/ validator = validateMax \/
  validator = validateBetween.
Proof.
  unfold validators.
  repeat match goal with |- context [if ?b then _ else _] => destruct b end;
    intros H; try discriminate H; injection H as <-; tauto.
Qed.

Lemma checker_wellFormed (ord : MapOrder) (name : string) (validator : Checker)
    (v : reflect.Value) (value : string) (r : Verdict) :
  validators ord name = Some validator ->
  validator v value = Returns r -> wellFormed r.
Proof.
  intros Hv.
  destruct (validators_cases _ _ _ Hv) as [-> | [-> | [-> | [-> | ->]]]].
  - apply validateLen_wellFormed.
  - apply validateIn_wellFormed.
  - apply validateMin_wellFormed.
  - apply validateMax_wellFormed.
  - apply validateBetween_wellFormed.
Qed.

(** ** The loop over the fields *)

(** One turn of the loop either panics or goes on with at most one more
    error; it never leaves [Validate], and what it does is the same
    whatever has been collected before. *)
Lemma fieldBody_cases (ord : MapOrder) (f : Field) :
  (exists p, forall vs, fieldBody ord f vs = Panics p) \/
  (exists c, forall vs, fieldBody ord f vs = Returns (Continue (vs ++ entry c))).
Proof.
  unfold fieldBody.
  destruct (reflect.Lookup _ _) as [tagValue|].
  2:{ right. exists None. intros vs. simpl. now rewrite app_nil_r. }
  destruct (reflect.IsExported _); simpl.
  2:{ right. now exists (Some (mkValidationError ErrValidateForUnexportedFields)). }
  destruct (strings.Split tagValue ":") as [|rule0 [|rule1 [|more rule]]].
  1,2,4: right; now exists (Some (mkValidationError ErrInvalidValidatorSyntax)).
  destruct (validators ord rule0) as [validator|] eqn:Hv.
  2:{ right. now exists (Some (mkValidationError (New "Unexpected validator option"))). }
  destruct (validator (val f) rule1) as [r|p] eqn:Hr; simpl.
  2:{ left. now exists p. }
  destruct (checker_wellFormed _ _ _ _ _ _ Hv Hr) as [-> | [e ->]]; simpl; right.
  - exists None. intros vs. simpl. now rewrite app_nil_r.
  - now exists (Some (mkValidationError e)).
Qed.

(** When [Validate] returns for a struct, every field has added its
    entry, in order, to the errors collected before it. *)
Lemma validateFields_returns (rt : Schedule) (fields : list Field) :
  forall (i : nat) (vs : ValidationErrors) (r : option error),
  validateFields rt i fields vs = Returns r ->
  exists cs : list (option ValidationError),
    Forall2 (fun jf c => fieldBody (rt (fst jf)) (snd jf) [] = Returns (Continue (entry c)))
            (indexed i fields) cs /\
    r = aggregate (vs ++ List.concat (map entry cs)).
Proof.
  induction fields as [|f rest IH]; intros i vs r; simpl.
  - intros H. exists []. split; [constructor|].
    simpl. rewrite app_nil_r. destruct vs; now injection H as <-.
  - destruct (fieldBody_cases (rt i) f) as [[p Hp] | [c Hc]].
    + rewrite Hp. discriminate.
    + rewrite Hc. simpl. intros H.
      destruct (IH _ _ _ H) as (cs & Hcs & ->).
      exists (c :: cs). split.
      * constructor; [apply (Hc []) | exact Hcs].
      * simpl. now rewrite app_assoc.
Qed.

Lemma length_entries (cs : list (option ValidationError)) :
  (List.length (List.concat (map entry cs)) <= List.length cs)%nat.
Proof.
  induction cs as [|[ve|] cs IH]; simpl; lia.
Qed.

(** A field without the tag is passed over. *)
Lemma validateFields_untagged (rt : Schedule) (fields : list Field) :
  (forall f, In f fields -> reflect.Lookup (reflect.Tag (decl f)) "validate" = None) ->
  forall i vs, validateFields rt i fields vs = Returns (aggregate vs).
Proof.
  induction fields as [|f rest IH]; intros Hno i vs; simpl.
  - now destruct vs.
  - unfold fieldBody. rewrite (Hno f (or_introl eq_refl)). simpl.
    apply IH. intros g Hg. apply Hno. now right.
Qed.

(* ================================================================== *)
(** ** The between checker and its limits *)

(** A parameter without a comma splits into one part, and reading the
    second limit indexes past the end of the slice. *)
Lemma validateBetween_one_part (v : reflect.Value) (value : string) :
  occurs "," value = false ->
  validateBetween v value = Panics (IndexOutOfRange 1 1).
Proof.
  intros H. unfold validateBetween.
  rewrite (Split_without_sep _ _ H). simpl.
  now destruct (strconv.Atoi value).
Qed.

(** When the parameter has two parts and the second limit does not
    parse, the checker does report the syntax error. *)
Lemma validateBetween_bad_second_limit (v : reflect.Value)
    (limit0 limit1 : string) (n : Z) (e : strconv.NumError) :
  occurs "," limit0 = false ->
  occurs "," limit1 = false ->
  strconv.Atoi limit1 = (n, Some e) ->
  validateBetween v (limit0 ++ String "," limit1)
  = Returns (reject ErrInvalidValidatorSyntax).
Proof.
  intros H0 H1 Hn. unfold validateBetween.
  rewrite (Split_first_part _ _ _ H0), (Split_without_sep _ _ H1). simpl.
  destruct (strconv.Atoi limit0). now rewrite Hn.
Qed.

(** C1 (fails on the code).  The claim: whenever the limits of a between
    rule do not parse as integers (empty parameter, a single part, a
    first limit that is not a number) the checker returns the syntax
    error and never panics.  The code: with an empty parameter or a
    single part it panics, indexing the split parts out of range; with
    the first limit [abc], which [Atoi] refuses, it takes 0 for that
    limit and accepts the value 3 under [between:abc,5], so [Validate]
    returns nil for such a field, while the value 7 gets a value
    failure. *)
Theorem validateBetween_unparsed_limits :
  (forall v, validateBetween v "" = Panics (IndexOutOfRange 1 1)) /\
  (forall v, validateBetween v "5" = Panics (IndexOutOfRange 1 1)) /\
  strconv.Atoi "abc" = (0, Some strconv.ErrSyntax) /\
  validateBetween (reflect.mkValue None (reflect.dyn_int 3)) "abc,5" = Returns pass /\
  validateBetween (reflect.mkValue None (reflect.dyn_int 7)) "abc,5"
    = Returns (reject (New "Integer is more than allowed")) /\
  (forall rt, Validate rt (value reflect.Struct
                 [tagged "F" "between:abc,5" None (reflect.dyn_int 3)])
              = Returns None) /\
  (forall rt, Validate rt (value reflect.Struct
                 [tagged "F" "between:5" None (reflect.dyn_int 3)])
              = Panics (IndexOutOfRange 1 1)).
Proof.
  repeat split; intros; try reflexivity;
    now apply validateBetween_one_part.
Qed.

(* ================================================================== *)
(** ** The guard of Validate *)

(** Every value of a Kind other than [Struct] is refused with
    [ErrNotStruct], whatever else it holds. *)
Lemma Validate_not_struct (rt : Schedule) (k : reflect.Kind) (fields : list Field) :
  k <> reflect.Struct ->
  Validate rt (value k fields) = Returns (Some (Fundamental ErrNotStruct)).
Proof.
  intros Hk. unfold Validate. simpl.
  destruct k; try reflexivity. now contradict Hk.
Qed.

(** C2 (fails on the code).  The claim: every input that is not a struct,
    nil included, gets [ErrNotStruct] and never a panic.  The code: for
    the nil interface [reflect.TypeOf] yields a nil [Type], and the call
    of [Kind] on it panics before the guard is evaluated. *)
Theorem Validate_nil_panics (rt : Schedule) :
  Validate rt nil_any = Panics NilDereference.
Proof. reflexivity. Qed.

(* ================================================================== *)
(** ** Membership and the order of the map loop *)

Lemma fair_stored : fair stored.
Proof. intros keys. apply Permutation_refl. Qed.

Lemma fair_reversed : fair reversed.
Proof. intros keys. apply Permutation_sym, Permutation_rev. Qed.

(** C3 (fails on the code).  The claim: on an [int] field, a token that
    is not an integer makes the in checker fail with the syntax error
    even if another token equals the value.  The code: the loop over the
    token set returns [true] at the first key that matches, so with the
    tokens [5,abc] and the value 5 the verdict depends on which key the
    map loop visits first; both orders below are orders the runtime may
    pick. *)
Theorem validateIn_int_match_before_bad_token :
  fair stored /\ fair reversed /\
  strconv.Atoi "abc" = (0, Some strconv.ErrSyntax) /\
  validateIn stored (reflect.mkValue None (reflect.dyn_int 5)) "5,abc"
    = Returns pass /\
  validateIn reversed (reflect.mkValue None (reflect.dyn_int 5)) "5,abc"
    = Returns (reject ErrInvalidValidatorSyntax).
Proof.
  repeat split; try reflexivity; [apply fair_stored | apply fair_reversed].
Qed.

(** C7 (fails on the code).  The claim: validating the same record twice
    gives the same result, and a record found valid is found valid
    again.  The code: for the record with the one field
    [F int `validate:"in:5,abc"`] holding 5, one call may return nil and
    the next an aggregate with the syntax error, by the order of the map
    loop in the in checker. *)
Theorem Validate_twice_differs :
  let record := value reflect.Struct
                  [tagged "F" "in:5,abc" None (reflect.dyn_int 5)] in
  fairSchedule (fun _ => stored) /\ fairSchedule (fun _ => reversed) /\
  Validate (fun _ => stored) record = Returns None /\
  Validate (fun _ => reversed) record
    = Returns (Some (IsValidationErrors [mkValidationError ErrInvalidValidatorSyntax])).
Proof.
  repeat split; try reflexivity; intros i;
    [apply fair_stored | apply fair_reversed].
Qed.

(* ================================================================== *)
(** ** Unexported fields *)

(** C4.  A field that carries the tag but is not exported adds exactly
    one [ErrValidateForUnexportedFields] to the errors collected so far,
    and the loop goes on with the next field; neither the text of the
    tag nor the value of the field plays a part, so a malformed tag
    changes nothing. *)
Theorem unexported_field_appends_one_error
    (rt : Schedule) (i : nat) (f : Field) (rest : list Field)
    (vs : ValidationErrors) (tagValue : string) :
  reflect.Lookup (reflect.Tag (decl f)) "validate" = Some tagValue ->
  reflect.IsExported (decl f) = false ->
  fieldBody (rt i) f vs
    = Returns (Continue (vs ++ [mkValidationError ErrValidateForUnexportedFields])) /\
  validateFields rt i (f :: rest) vs
    = validateFields rt (S i) rest
        (vs ++ [mkValidationError ErrValidateForUnexportedFields]).
Proof.
  intros Htag Hexp.
  assert (Hbody : fieldBody (rt i) f vs
    = Returns (Continue (vs ++ [mkValidationError ErrValidateForUnexportedFields]))).
  { unfold fieldBody. now rewrite Htag, Hexp. }
  split; [exact Hbody|].
  simpl. now rewrite Hbody.
Qed.

(** The rule [between:] would panic if it were evaluated; on an
    unexported field it is not. *)
Lemma unexported_field_appends_one_error_witness :
  let f := mkField (reflect.mkStructField "foo" "validation" [("validate", "between:")])
                   (reflect.mkValue None (reflect.dyn_int 3)) in
  let unexported := mkValidationError ErrValidateForUnexportedFields in
  fieldBody stored f [] = Returns (Continue [unexported]) /\
  validateFields (fun _ => stored) 0 [f; f] [] 
    = validateFields (fun _ => stored) 1 [f] [unexported].
Proof.
  apply (unexported_field_appends_one_error (fun _ => stored) 0 _ _ [] "between:");
    reflexivity.
Defined.

(* ================================================================== *)
(** ** The aggregate *)

(** C5.  For a struct, when [Validate] returns: each field has added at
    most one entry (none, or one error, and the same whatever the other
    fields hold), the aggregate lists these entries in the order of the
    fields, and the result is nil exactly when no entry was collected,
    never an empty aggregate.  A struct none of whose fields carries
    the tag returns nil. *)
Theorem Validate_struct_aggregate (rt : Schedule) (fields : list Field) :
  (forall r, Validate rt (value reflect.Struct fields) = Returns r ->
     exists cs : list (option ValidationError),
       Forall2 (fun jf c =>
                  fieldBody (rt (fst jf)) (snd jf) [] = Returns (Continue (entry c)))
               (indexed 0 fields) cs /\
       (List.length (List.concat (map entry cs)) <= List.length fields)%nat /\
       r = aggregate (List.concat (map entry cs)) /\
       r <> Some (IsValidationErrors [])) /\
  ((forall f, In f fields ->
      reflect.Lookup (reflect.Tag (decl f)) "validate" = None) ->
   Validate rt (value reflect.Struct fields) = Returns None).
Proof.
  split.
  - intros r H. unfold Validate in H. simpl in H.
    destruct (validateFields_returns _ _ _ _ _ H) as (cs & Hcs & ->).
    exists cs. simpl. repeat split; trivial.
    + pose proof (length_entries cs) as Hlen.
      apply Forall2_length in Hcs. unfold indexed in Hcs.
      rewrite length_combine, length_seq, Nat.min_id in Hcs. lia.
    + now destruct (List.concat (map entry cs)).
  - intros Hno. unfold Validate. simpl.
    now rewrite (validateFields_untagged _ _ Hno).
Qed.

Lemma Validate_struct_aggregate_witness :
  let unexported := mkField (reflect.mkStructField "a" "validation" [("validate", "len:1")])
                            (reflect.mkValue None (reflect.dyn_string "x")) in
  let untagged := mkField (reflect.mkStructField "B" "" [("json", "b")])
                          (reflect.mkValue None (reflect.dyn_int 7)) in
  let fields := [tagged "A" "min:3" None (reflect.dyn_int 1); untagged; unexported] in
  (exists cs : list (option ValidationError),
     Forall2 (fun jf c =>
                fieldBody stored (snd jf) [] = Returns (Continue (entry c)))
             (indexed 0 fields) cs /\
     (List.length (List.concat (map entry cs)) <= 3)%nat /\
     Some (IsValidationErrors
             [mkValidationError (New "Integer is less than allowed");
              mkValidationError ErrValidateForUnexportedFields])
       = aggregate (List.concat (map entry cs)) /\
     Some (IsValidationErrors
             [mkValidationError (New "Integer is less than allowed");
              mkValidationError ErrValidateForUnexportedFields])
       <> Some (IsValidationErrors [])) /\
  Validate (fun _ => stored) (value reflect.Struct [untagged; untagged]) = Returns None.
Proof.
  intros unexported untagged fields. split.
  - apply (proj1 (Validate_struct_aggregate (fun _ => stored) fields)).
    reflexivity.
  - apply (proj2 (Validate_struct_aggregate (fun _ => stored) [untagged; untagged])).
    intros f [<- | [<- | []]]; reflexivity.
Defined.

(** ** The message of the aggregate *)

Lemma append_empty_r (s : string) : (s ++ "")%string = s.
Proof. induction s as [|c s IH]; simpl; [reflexivity | now rewrite IH]. Qed.

Lemma append_assoc (s t u : string) :
  ((s ++ t) ++ u)%string = (s ++ t ++ u)%string.
Proof. induction s as [|c s IH]; simpl; [reflexivity | now rewrite IH]. Qed.

Lemma concat_cons (x : string) (xs : list string) :
  String.concat "" (x :: xs) = (x ++ String.concat "" xs)%string.
Proof.
  destruct xs as [|y ys]; simpl; [now rewrite append_empty_r | reflexivity].
Qed.

(** The loop of [ValidationErrors.Error], started from any [res]. *)
Lemma ValidationErrors_Error_from (vs : ValidationErrors) (res : string) :
  fold_left (fun res v => (res ++ fundamental_Error (Err v))%string) vs res
  = (res ++ String.concat "" (map ValidationError_Error vs))%string.
Proof.
  revert res. induction vs as [|v vs IH]; intros res.
  - simpl. now rewrite append_empty_r.
  - cbn [fold_left map]. rewrite IH, concat_cons, append_assoc. reflexivity.
Qed.

Lemma ValidationErrors_Error_concat (vs : ValidationErrors) :
  ValidationErrors_Error vs = String.concat "" (map ValidationError_Error vs).
Proof. unfold ValidationErrors_Error. now rewrite ValidationErrors_Error_from. Qed.

(** Only a struct yields an aggregate, and then a non-empty one. *)
Lemma Validate_aggregate_inv (rt : Schedule) (v : any) (vs : ValidationErrors) :
  Validate rt v = Returns (Some (IsValidationErrors vs)) ->
  vs <> [] /\ exists fields, v = value reflect.Struct fields.
Proof.
  destruct v as [|k fields]; [discriminate|].
  unfold Validate. simpl.
  destruct k; try discriminate.
  intros H. split; [|now exists fields].
  destruct (validateFields_returns _ _ _ _ _ H) as (cs & _ & Hr).
  simpl in Hr. destruct (List.concat (map entry cs)); [discriminate|].
  injection Hr as ->. discriminate.
Qed.

(** C8.  An aggregate that [Validate] returns is not empty, and its
    [Error] string is the messages of its members, in their order (the
    order of the fields, by C5), put end to end with nothing between. *)
Theorem aggregate_message (rt : Schedule) (v : any) (vs : ValidationErrors) :
  Validate rt v = Returns (Some (IsValidationErrors vs)) ->
  vs <> [] /\
  Error (IsValidationErrors vs) = String.concat "" (map ValidationError_Error vs).
Proof.
  intros H. split.
  - apply (Validate_aggregate_inv _ _ _ H).
  - apply ValidationErrors_Error_concat.
Qed.

Lemma aggregate_message_witness :
  let vs := [mkValidationError (New "lengths don't match");
             mkValidationError (Errorf "The string on position %d is not allowed" 1)] in
  vs <> [] /\
  Error (IsValidationErrors vs)
  = String.concat "" ["lengths don't match"; "The string on position 1 is not allowed"].
Proof.
  intros vs.
  apply (aggregate_message (fun _ => stored)
           (value reflect.Struct
              [tagged "Higher" "len:5" None (reflect.dyn_string "abcdef");
               tagged "Field" "in:ab,ba,cd" None (reflect.dyn_strings ["ba"; "ka"; "ab"])])
           vs).
  reflexivity.
Defined.

(* ================================================================== *)
(** ** The abort branch *)

(** C9.  A checker that returns gives [true] with a nil error or
    [false] with a [ValidationError]; so no turn of the loop takes the
    branch [return err], and what [Validate] returns is nil,
    [ErrNotStruct] or a non-empty aggregate. *)
Theorem abort_branch_unreachable :
  (forall ord name validator v value ok err,
     validators ord name = Some validator ->
     validator v value = Returns (ok, err) ->
     (ok = true /\ err = None) \/
     (ok = false /\ exists ve, err = Some (IsValidationError ve))) /\
  (forall ord f vs err, fieldBody ord f vs <> Returns (Return err)) /\
  (forall rt v r,
     Validate rt v = Returns r ->
     r = None \/ r = Some (Fundamental ErrNotStruct) \/
     exists vs, vs <> [] /\ r = Some (IsValidationErrors vs)).
Proof.
  repeat split.
  - intros ord name validator v value ok err Hv Hr.
    destruct (checker_wellFormed _ _ _ _ _ _ Hv Hr) as [H | [e H]];
      injection H as -> ->; [now left | right].
    split; [reflexivity | now eexists].
  - intros ord f vs err.
    destruct (fieldBody_cases ord f) as [[p H] | [c H]]; rewrite H; discriminate.
  - intros rt [|k fields] r; [discriminate|].
    unfold Validate. simpl.
    destruct k;
      try (intros H; injection H as <-; right; now left).
    intros H.
    destruct (validateFields_returns _ _ _ _ _ H) as (cs & _ & ->).
    simpl. destruct (List.concat (map entry cs)) as [|ve vs]; [now left|].
    right; right. exists (ve :: vs). now split.
Qed.

Lemma abort_branch_unreachable_witness :
  ((false = true /\ Some (IsValidationError (mkValidationError ErrInvalidValidatorSyntax)) = None) \/
   (false = false /\
    exists ve, Some (IsValidationError (mkValidationError ErrInvalidValidatorSyntax))
               = Some (IsValidationError ve))) /\
  (let r := Some (IsValidationErrors [mkValidationError ErrInvalidValidatorSyntax]) in
   r = None \/ r = Some (Fundamental ErrNotStruct) \/
   exists vs, vs <> [] /\ r = Some (IsValidationErrors vs)).
Proof.
  split.
  - apply (proj1 abort_branch_unreachable stored "len" validateLen
             (reflect.mkValue None (reflect.dyn_int 3)) "3"); reflexivity.
  - apply (proj2 (proj2 abort_branch_unreachable) (fun _ => stored)
             (value reflect.Struct [tagged "F" "len:3" None (reflect.dyn_int 3)])).
    reflexivity.
Defined.

(* ================================================================== *)
(** ** Extra parts of a between parameter *)

(** C10.  Only the first two comma-separated parts of the parameter of
    a between rule are read: with anything appended after a further
    comma the checker does exactly what it does without it.  The parts
    appended cause no syntax failure: when the two limits parse and the
    type of the field is supported, the answer is not
    [ErrInvalidValidatorSyntax]. *)
Theorem validateBetween_ignores_extra_parts
    (v : reflect.Value) (limit0 limit1 extra : string) :
  occurs "," limit0 = false ->
  occurs "," limit1 = false ->
  validateBetween v (limit0 ++ "," ++ limit1 ++ "," ++ extra)%string
  = validateBetween v (limit0 ++ "," ++ limit1)%string /\
  (forall lo hi,
     strconv.Atoi limit0 = (lo, None) ->
     strconv.Atoi limit1 = (hi, None) ->
     reflect.Interface v <> reflect.dyn_other ->
     validateBetween v (limit0 ++ "," ++ limit1 ++ "," ++ extra)%string
     <> Returns (reject ErrInvalidValidatorSyntax)).
Proof.
  intros H0 H1. unfold validateBetween. simpl.
  rewrite !(Split_first_part _ _ _ H0), (Split_first_part _ _ _ H1),
    (Split_without_sep _ _ H1).
  split; [reflexivity|].
  intros lo hi Hlo Hhi Hsupported.
  cbn [index nth_error bind]. rewrite Hlo, Hhi.
  destruct v as [boxed [s|m|slice|slice|]];
    cbn [reflect.Interface reflect.content] in *.
  - destruct (_ && _); discriminate.
  - destruct boxed as [t|]; cbn [reflect.Int reflect.boxed reflect.content bind];
      [discriminate|].
    destruct (_ && _); discriminate.
  - match goal with |- context [rangeSlice ?bad ?format 0 slice] =>
      destruct (rangeSlice_cases bad format slice 0) as [H | [j H]]; rewrite H
    end; discriminate.
  - match goal with |- context [rangeSlice ?bad ?format 0 slice] =>
      destruct (rangeSlice_cases bad format slice 0) as [H | [j H]]; rewrite H
    end; discriminate.
  - now contradict Hsupported.
Qed.

Lemma validateBetween_ignores_extra_parts_witness :
  let v := reflect.mkValue None (reflect.dyn_int 3) in
  validateBetween v "1,5,999" = validateBetween v "1,5" /\
  validateBetween v "1,5,999" <> Returns (reject ErrInvalidValidatorSyntax).
Proof.
  intros v.
  destruct (validateBetween_ignores_extra_parts v "1" "5" "999" eq_refl eq_refl)
    as [Hsame Hsyntax].
  split; [exact Hsame|].
  apply (Hsyntax 1 5); [reflexivity | reflexivity | discriminate].
Defined.

(** The parameter [1,5,999] is no syntax failure: 3 passes, 7 fails on
    its value. *)
Example between_1_5_999 :
  validateBetween (reflect.mkValue None (reflect.dyn_int 3)) "1,5,999" = Returns pass /\
  validateBetween (reflect.mkValue None (reflect.dyn_int 7)) "1,5,999"
    = Returns (reject (New "Integer is more than allowed")).
Proof. split; reflexivity. Qed.

(* ================================================================== *)
(** ** Slices: rejection *)


(** Every slice loop of the package can reject an element, each with
    its own message ([len] supports no [[]int]). *)
Example every_slice_loop_rejects :
  let strs x := reflect.mkValue None (reflect.dyn_strings [x]) in
  let ints x := reflect.mkValue None (reflect.dyn_ints [x]) in
  validateLen (strs "ab") "3"
    = Returns (reject (Errorf "The string on position %d is shorter than allowed" 0)) /\
  validateLen (ints 3) "3" = Returns (reject ErrInvalidValidatorSyntax) /\
  validateIn stored (strs "ab") "cd,ef"
    = Returns (reject (Errorf "The string on position %d is not allowed" 0)) /\
  validateIn stored (ints 3) "4,5"
    = Returns (reject (Errorf "The integer on position %d is less than allowed" 0)) /\
  validateMin (strs "ab") "3"
    = Returns (reject (Errorf "The string on position %d is shorter than allowed" 0)) /\
  validateMin (ints 2) "3"
    = Returns (reject (Errorf "The integer on position %d is less than allowed" 0)) /\
  validateMax (strs "abcd") "3"
    = Returns (reject (Errorf "The string on position %d is longer than allowed" 0)) /\
  validateMax (ints 4) "3"
    = Returns (reject (Errorf "The integer on position %d is more than allowed" 0)) /\
  validateBetween (strs "abcd") "1,3"
    = Returns (reject (Errorf "The string on position %d is longer than allowed" 0)) /\
  validateBetween (ints 0) "1,3"
    = Returns (reject (Errorf "The integer on position %d is more than allowed" 0)).
Proof. repeat split. Qed.

(* ================================================================== *)
(** ** When the order of the map loop does not matter *)

(** [parses] reads the error of [Atoi]. *)
Lemma parses_Atoi (token : string) :
  (exists val e, strconv.Atoi token = (val, Some e) /\ parses token = false) \/
  (exists val, strconv.Atoi token = (val, None) /\ parses token = true).
Proof.
  unfold parses. destruct (strconv.Atoi token) as [val [e|]]; simpl.
  - left. now exists val, e.
  - right. now exists val.
Qed.

Lemma existsb_Permutation {A : Type} (p : A -> bool) (l l' : list A) :
  Permutation l l' -> existsb p l = existsb p l'.
Proof.
  induction 1 as [|x l l' _ IH|x y l|l l' l'' _ IH1 _ IH2]; simpl.
  - reflexivity.
  - now rewrite IH.
  - now destruct (p x), (p y).
  - now rewrite IH1.
Qed.

Lemma forallb_Permutation {A : Type} (p : A -> bool) (l l' : list A) :
  Permutation l l' -> forallb p l = forallb p l'.
Proof.
  induction 1 as [|x l l' _ IH|x y l|l l' l'' _ IH1 _ IH2]; simpl.
  - reflexivity.
  - now rewrite IH.
  - now destruct (p x), (p y).
  - now rewrite IH1.
Qed.

(** The [int] loop when every key parses: a panic of [v.Int()] at the
    first key, or a plain membership test. *)
Lemma inIntLoop_all_parse (v : reflect.Value) (keys : list string) :
  forallb parses keys = true ->
  inIntLoop v keys
  = match keys with
    | [] => Returns (reject (New "Field value isn't allowed"))
    | _ =>
        n <- reflect.Int v ;;
        Returns (if existsb (fun key => fst (strconv.Atoi key) =? n) keys
                 then pass else reject (New "Field value isn't allowed"))
    end.
Proof.
  induction keys as [|key rest IH]; [reflexivity|].
  cbn [forallb inIntLoop existsb].
  destruct (parses_Atoi key) as [[val [e [-> ->]]] | [val [-> ->]]];
    cbn [fst snd andb]; [discriminate|].
  intros Hrest. rewrite (IH Hrest).
  destruct (reflect.Int v) as [n|p]; cbn [bind]; [|reflexivity].
  destruct (val =? n); cbn [orb]; [reflexivity|].
  destruct rest; reflexivity.
Qed.

(** The [int] loop when no key equals the value: the verdict tells only
    whether some key failed to parse. *)
Lemma inIntLoop_no_match (boxed : option string) (n : Z) (keys : list string) :
  boxed = None ->
  existsb (fun key => parses key && (fst (strconv.Atoi key) =? n)) keys = false ->
  inIntLoop (reflect.mkValue boxed (reflect.dyn_int n)) keys
  = Returns (if forallb parses keys
             then reject (New "Field value isn't allowed")
             else reject ErrInvalidValidatorSyntax).
Proof.
  intros ->. induction keys as [|key rest IH]; [reflexivity|].
  cbn [forallb inIntLoop existsb].
  destruct (parses_Atoi key) as [[val [e [-> ->]]] | [val [-> ->]]];
    cbn [fst snd andb orb bind reflect.Int reflect.boxed reflect.content];
    [reflexivity|].
  destruct (val =? n); [discriminate|]. exact IH.
Qed.

Lemma hasInt_insertInt (m : list Z) (key z : Z) :
  hasInt (insertInt m key) z = hasInt m z || (z =? key).
Proof.
  unfold hasInt, insertInt.
  destruct (existsb (Z.eqb key) m) eqn:Hin.
  - destruct (Z.eqb_spec z key) as [->|]; [|now rewrite orb_false_r].
    now rewrite Hin.
  - rewrite existsb_app. simpl. now rewrite orb_false_r.
Qed.

(** The set built by the first loop of the [[]int] branch. *)
Lemma makeTokensSetInt_spec (keys : list string) (m : list Z) :
  match makeTokensSetInt keys m with
  | Some m' =>
      forallb parses keys = true /\
      forall z, hasInt m' z
                = hasInt m z || existsb (fun key => z =? fst (strconv.Atoi key)) keys
  | None => forallb parses keys = false
  end.
Proof.
  revert m. induction keys as [|key rest IH]; intros m.
  - simpl. split; [reflexivity|]. intros z. now rewrite orb_false_r.
  - cbn [makeTokensSetInt forallb existsb].
    destruct (parses_Atoi key) as [[val [e [-> ->]]] | [val [-> ->]]];
      cbn [fst snd andb]; [reflexivity|].
    specialize (IH (insertInt m val)).
    destruct (makeTokensSetInt rest (insertInt m val)) as [m'|]; [|exact IH].
    destruct IH as [Hall Hm']. split; [exact Hall|].
    intros z. now rewrite Hm', hasInt_insertInt, orb_assoc.
Qed.

Lemma rangeSlice_ext {A : Type} (bad bad' : A -> bool) (format : string)
    (slice : list A) (i : nat) :
  (forall x, bad x = bad' x) ->
  rangeSlice bad format i slice = rangeSlice bad' format i slice.
Proof.
  intros Hext. revert i. induction slice as [|elem rest IH]; intros i; simpl.
  - reflexivity.
  - now rewrite Hext, IH.
Qed.

(** The [[]int] branch parses every token before it reads an element:
    its verdict is the same under every order of the map loop. *)
Lemma validateIn_ints_any_order (ord ord' : MapOrder) (boxed : option string)
    (slice : list Z) (value : string) :
  fair ord -> fair ord' ->
  validateIn ord (reflect.mkValue boxed (reflect.dyn_ints slice)) value
  = validateIn ord' (reflect.mkValue boxed (reflect.dyn_ints slice)) value.
Proof.
  intros Hord Hord'. unfold validateIn.
  destruct (len value =? 0); [reflexivity|].
  unfold reflect.Interface; cbn [reflect.content].
  set (keys := makeTokensSet (strings.Split value ",")).
  pose proof (makeTokensSetInt_spec (ord keys) []) as H.
  pose proof (makeTokensSetInt_spec (ord' keys) []) as H'.
  assert (Hperm : Permutation (ord keys) (ord' keys)).
  { eapply Permutation_trans; [apply Hord | apply Permutation_sym, Hord']. }
  rewrite (forallb_Permutation _ _ _ Hperm) in H.
  destruct (makeTokensSetInt (ord keys) []) as [m|],
           (makeTokensSetInt (ord' keys) []) as [m'|].
  - destruct H as [_ Hm], H' as [_ Hm']. f_equal.
    apply rangeSlice_ext. intros z.
    now rewrite Hm, Hm', (existsb_Permutation _ _ _ Hperm).
  - destruct H as [H _]. congruence.
  - destruct H' as [H' _]. congruence.
  - reflexivity.
Qed.

(** On an [int] field the verdict is the same under every order once all
    the tokens parse. *)
Lemma validateIn_int_any_order (ord ord' : MapOrder) (boxed : option string)
    (n : Z) (value : string) :
  fair ord -> fair ord' ->
  forallb parses (makeTokensSet (strings.Split value ",")) = true ->
  validateIn ord (reflect.mkValue boxed (reflect.dyn_int n)) value
  = validateIn ord' (reflect.mkValue boxed (reflect.dyn_int n)) value.
Proof.
  intros Hord Hord' Hall. unfold validateIn.
  destruct (len value =? 0); [reflexivity|].
  unfold reflect.Interface; cbn [reflect.content].
  set (keys := makeTokensSet (strings.Split value ",")) in *.
  assert (Hperm : Permutation (ord keys) (ord' keys)).
  { eapply Permutation_trans; [apply Hord | apply Permutation_sym, Hord']. }
  rewrite !inIntLoop_all_parse.
  2:{ now rewrite (forallb_Permutation _ _ _ (Hord' keys)). }
  2:{ now rewrite (forallb_Permutation _ _ _ (Hord keys)). }
  destruct (ord keys) as [|k ks], (ord' keys) as [|k' ks'].
  - reflexivity.
  - apply Permutation_nil in Hperm. discriminate.
  - apply Permutation_sym, Permutation_nil in Hperm. discriminate.
  - destruct (reflect.Int _) as [m|p]; cbn [bind]; [|reflexivity].
    now rewrite (existsb_Permutation _ _ _ Hperm).
Qed.

(** What C3 asks for does hold when no token equals the value: a token
    that does not parse then gives the syntax error under every order. *)
Lemma validateIn_int_bad_token_no_match (ord : MapOrder) (n : Z) (value : string) :
  fair ord ->
  len value <> 0 ->
  let keys := makeTokensSet (strings.Split value ",") in
  forallb parses keys = false ->
  existsb (fun key => parses key && (fst (strconv.Atoi key) =? n)) keys = false ->
  validateIn ord (reflect.mkValue None (reflect.dyn_int n)) value
  = Returns (reject ErrInvalidValidatorSyntax).
Proof.
  intros Hord Hlen keys Hbad Hno. unfold validateIn.
  destruct (Z.eqb_spec (len value) 0) as [|_]; [contradiction|].
  unfold reflect.Interface; cbn [reflect.content]. fold keys.
  rewrite inIntLoop_no_match; trivial.
  - now rewrite (forallb_Permutation _ _ _ (Hord keys)), Hbad.
  - now rewrite (existsb_Permutation _ _ _ (Hord keys)).
Qed.

Lemma validateIn_any_order (ord ord' : MapOrder) (v : reflect.Value) (value : string) :
  fair ord -> fair ord' ->
  (forall n, reflect.Interface v = reflect.dyn_int n ->
             forallb parses (makeTokensSet (strings.Split value ",")) = true) ->
  validateIn ord v value = validateIn ord' v value.
Proof.
  intros Hord Hord' Hint. destruct v as [boxed [s|n|slice|slice|]].
  - reflexivity.
  - apply validateIn_int_any_order; trivial. now apply (Hint n).
  - reflexivity.
  - now apply validateIn_ints_any_order.
  - reflexivity.
Qed.

Lemma fieldBody_any_order (ord ord' : MapOrder) (f : Field) (vs : ValidationErrors) :
  fair ord -> fair ord' -> steady f ->
  fieldBody ord f vs = fieldBody ord' f vs.
Proof.
  intros Hord Hord' Hf. unfold fieldBody.
  destruct (reflect.Lookup _ _) as [tagValue|] eqn:Htag; [|reflexivity].
  destruct (negb _); [reflexivity|].
  destruct (strings.Split tagValue ":") as [|rule0 [|rule1 [|more rule]]] eqn:Hsplit;
    try reflexivity.
  unfold validators.
  destruct (String.eqb rule0 "len"); [reflexivity|].
  destruct (String.eqb_spec rule0 "in") as [-> | _]; [|reflexivity].
  rewrite (validateIn_any_order ord ord' (val f) rule1); trivial.
  intros n Hn. now apply (Hf tagValue rule1 n).
Qed.

Lemma validateFields_any_order (rt rt' : Schedule) (fields : list Field) :
  fairSchedule rt -> fairSchedule rt' ->
  (forall f, In f fields -> steady f) ->
  forall i vs, validateFields rt i fields vs = validateFields rt' i fields vs.
Proof.
  intros Hrt Hrt'. induction fields as [|f rest IH]; intros Hst i vs; simpl.
  - reflexivity.
  - rewrite (fieldBody_any_order (rt i) (rt' i) f vs (Hrt i) (Hrt' i)
               (Hst f (or_introl eq_refl))).
    destruct (fieldBody (rt' i) f vs) as [[vs'|err]|p]; simpl; trivial.
    apply IH. intros g Hg. apply Hst. now right.
Qed.

(** Where every field is steady, the result of [Validate] does not
    depend on the orders of the map loops: the record of C7 is not
    steady, and only such records can be judged differently by two
    calls. *)
Lemma Validate_any_order (rt rt' : Schedule) (v : any) :
  fairSchedule rt -> fairSchedule rt' ->
  (forall f, In f (fieldsOf v) -> steady f) ->
  Validate rt v = Validate rt' v.
Proof.
  intros Hrt Hrt' Hst. unfold Validate.
  destruct v as [|k fields]; simpl; [reflexivity|].
  destruct k; try reflexivity.
  now apply validateFields_any_order.
Qed.


(* ================================================================== *)
(** ** When Validate returns *)

(** A string with the separator splits into two parts at least. *)
Lemma Split_with_sep (s : string) (sep : ascii) :
  occurs sep s = true ->
  exists part0 part1 parts, strings.Split s sep = part0 :: part1 :: parts.
Proof.
  induction s as [|c rest IH]; simpl; [discriminate|].
  destruct (Ascii.eqb c sep); simpl.
  - intros _. destruct (strings.Split rest sep) as [|p ps] eqn:Hs.
    + now destruct (Split_not_nil rest sep).
    + now exists EmptyString, p, ps.
  - intros H. destruct (IH H) as (p0 & p1 & ps & ->).
    now exists (String c p0), p1, ps.
Qed.

(** Closes [exists r, m = Returns r] once [m] is a known return. *)
Ltac returns :=
  repeat match goal with
    | |- context [if ?b then _ else _] => destruct b
    end;
  eexists; reflexivity.

Lemma inIntLoop_returns (v : reflect.Value) (keys : list string) (n : Z) :
  reflect.Int v = Returns n -> exists r, inIntLoop v keys = Returns r.
Proof.
  intros Hn. induction keys as [|key rest IH]; simpl; [returns|].
  destruct (strconv.Atoi key) as [val [e|]]; [returns|].
  rewrite Hn. simpl. destruct (val =? n); [returns | exact IH].
Qed.

(** [v.Int()] returns on a field declared [int]. *)
Lemma Int_returns (v : reflect.Value) (n : Z) :
  reflect.Interface v = reflect.dyn_int n ->
  reflect.boxed v = None ->
  reflect.Int v = Returns n.
Proof.
  destruct v as [boxed content]. simpl. now intros -> ->.
Qed.

(** Splits on the type switch and settles the [int] branch. *)
Ltac by_type v Hint :=
  destruct (reflect.Interface v) as [s|n|slice|slice|] eqn:Hdyn;
  try returns;
  rewrite (Int_returns v n Hdyn (Hint n eq_refl)); simpl; returns.

Lemma checker_returns (ord : MapOrder) (name : string) (validator : Checker)
    (v : reflect.Value) (value : string) :
  validators ord name = Some validator ->
  (forall n, reflect.Interface v = reflect.dyn_int n -> reflect.boxed v = None) ->
  (name = "between" -> occurs "," value = true) ->
  exists r, validator v value = Returns r.
Proof.
  unfold validators. intros Hv Hint Hcomma.
  destruct (String.eqb name "len"); [injection Hv as <-|].
  { unfold validateLen.
    destruct (strconv.Atoi value) as [expected [e|]]; [returns|].
    destruct (reflect.Interface v); returns. }
  destruct (String.eqb name "in"); [injection Hv as <-|].
  { unfold validateIn. destruct (len value =? 0); [returns|].
    destruct (reflect.Interface v) as [s|n|slice|slice|] eqn:Hdyn; try returns.
    - apply (inIntLoop_returns _ _ n). now apply Int_returns; [|apply (Hint n)].
    - destruct (makeTokensSetInt _ _); returns. }
  destruct (String.eqb name "min"); [injection Hv as <-|].
  { unfold validateMin.
    destruct (strconv.Atoi value) as [min [e|]]; [returns|].
    by_type v Hint. }
  destruct (String.eqb name "max"); [injection Hv as <-|].
  { unfold validateMax.
    destruct (strconv.Atoi value) as [max [e|]]; [returns|].
    by_type v Hint. }
  destruct (String.eqb_spec name "between") as [Hname|]; [injection Hv as <-|discriminate].
  unfold validateBetween.
  destruct (Split_with_sep _ _ (Hcomma Hname)) as (limit0 & limit1 & parts & ->).
  simpl.
  destruct (strconv.Atoi limit0) as [min _].
  destruct (strconv.Atoi limit1) as [max [e|]]; [returns|].
  by_type v Hint.
Qed.

Lemma fieldBody_returns (ord : MapOrder) (f : Field) (vs : ValidationErrors) :
  safeField f -> exists step, fieldBody ord f vs = Returns step.
Proof.
  intros [Hint Hcomma]. unfold fieldBody.
  destruct (reflect.Lookup _ _) as [tagValue|] eqn:Htag; [|returns].
  destruct (negb _); [returns|].
  destruct (strings.Split tagValue ":") as [|rule0 [|rule1 [|more rule]]] eqn:Hsplit;
    try returns.
  destruct (validators ord rule0) as [validator|] eqn:Hv; [|returns].
  destruct (checker_returns ord rule0 validator (val f) rule1 Hv Hint) as [[ok err] ->].
  - intros ->. now apply (Hcomma tagValue).
  - simpl. destruct ok; [returns|]. destruct err as [[e|ve|agg]|]; returns.
Qed.

Lemma validateFields_total (rt : Schedule) (fields : list Field) :
  (forall f, In f fields -> safeField f) ->
  forall i vs, exists r, validateFields rt i fields vs = Returns r.
Proof.
  induction fields as [|f rest IH]; intros Hsafe i vs; simpl.
  - destruct vs; returns.
  - destruct (fieldBody_returns (rt i) f vs (Hsafe f (or_introl eq_refl))) as [step ->].
    simpl. destruct step as [vs'|err]; [|returns].
    apply IH. intros g Hg. apply Hsafe. now right.
Qed.

(** [Validate] returns for every input other than nil all of whose
    fields are safe: the panics of the package are the nil input, a
    between rule without a comma, and an [int] held in an interface. *)
Lemma Validate_total (rt : Schedule) (k : reflect.Kind) (fields : list Field) :
  (forall f, In f fields -> safeField f) ->
  exists r, Validate rt (value k fields) = Returns r.
Proof.
  intros Hsafe. unfold Validate. simpl.
  destruct k; try returns.
  now apply validateFields_total.
Qed.

(* ================================================================== *)
(** ** The guard, once more *)

Lemma Validate_not_struct_witness :
  Validate (fun _ => stored) (value reflect.Map [])
  = Returns (Some (Fundamental ErrNotStruct)).
Proof.
  apply (Validate_not_struct (fun _ => stored) reflect.Map []). discriminate.
Defined.

(* ================================================================== *)
(** ** The rule parser *)

Lemma length_Split (s : string) (sep : ascii) :
  List.length (strings.Split s sep) = S (count sep s).
Proof.
  induction s as [|c rest IH]; simpl; [reflexivity|].
  destruct (Ascii.eqb c sep); simpl; [now rewrite IH|].
  destruct (strings.Split rest sep) as [|part parts]; simpl in *; lia.
Qed.

(** A tag is read as a rule only if it has exactly one colon.  With
    none, or with two or more, an exported field adds one
    [ErrInvalidValidatorSyntax] and no checker is run: neither the
    value of the field nor the order of a map loop plays a part. *)
Theorem tag_without_one_colon (ord : MapOrder) (f : Field)
    (vs : ValidationErrors) (tagValue : string) :
  reflect.Lookup (reflect.Tag (decl f)) "validate" = Some tagValue ->
  reflect.IsExported (decl f) = true ->
  count ":" tagValue <> 1%nat ->
  fieldBody ord f vs
  = Returns (Continue (vs ++ [mkValidationError ErrInvalidValidatorSyntax])).
Proof.
  intros Htag Hexp Hcount. unfold fieldBody. rewrite Htag, Hexp. simpl.
  pose proof (length_Split tagValue ":") as Hlen.
  destruct (strings.Split tagValue ":") as [|rule0 [|rule1 [|more rule]]];
    try reflexivity.
  simpl in Hlen. lia.
Qed.

(** The rule [between:1:5] has two colons; evaluated, [between] with
    the parameter [1] would panic. *)
Lemma tag_without_one_colon_witness :
  fieldBody stored (tagged "F" "between:1:5" None (reflect.dyn_int 3)) []
    = Returns (Continue [mkValidationError ErrInvalidValidatorSyntax]) /\
  fieldBody stored (tagged "F" "len" None (reflect.dyn_string "abc")) []
    = Returns (Continue [mkValidationError ErrInvalidValidatorSyntax]).
Proof.
  split.
  - apply (tag_without_one_colon stored _ [] "between:1:5");
      [reflexivity | reflexivity | discriminate].
  - apply (tag_without_one_colon stored _ [] "len");
      [reflexivity | reflexivity | discriminate].
Defined.

Lemma validators_unregistered (ord : MapOrder) (name : string) :
  ~ In name registered -> validators ord name = None.
Proof.
  intros Hname. unfold validators.
  repeat match goal with
    | |- context [String.eqb name ?k] =>
        destruct (String.eqb_spec name k) as [->|_];
        [exfalso; apply Hname; unfold registered; simpl; tauto|]
    end.
  reflexivity.
Qed.

(** A rule whose first part is none of the five registered names adds
    one error with the message [Unexpected validator option], whatever
    its parameter and the value of the field; the names are compared
    byte by byte, so [Len] is not [len]. *)
Theorem unregistered_rule (ord : MapOrder) (f : Field) (vs : ValidationErrors)
    (tagValue name param : string) :
  reflect.Lookup (reflect.Tag (decl f)) "validate" = Some tagValue ->
  reflect.IsExported (decl f) = true ->
  strings.Split tagValue ":" = [name; param] ->
  ~ In name registered ->
  fieldBody ord f vs
  = Returns (Continue (vs ++ [mkValidationError (New "Unexpected validator option")])).
Proof.
  intros Htag Hexp Hsplit Hname. unfold fieldBody.
  now rewrite Htag, Hexp, Hsplit, (validators_unregistered ord name Hname).
Qed.

Lemma unregistered_rule_witness :
  fieldBody stored (tagged "F" "Len:3" None (reflect.dyn_string "abc")) []
  = Returns (Continue [mkValidationError (New "Unexpected validator option")]).
Proof.
  apply (unregistered_rule stored _ [] "Len:3" "Len" "3"); try reflexivity.
  unfold registered. simpl. intros [H | [H | [H | [H | [H | []]]]]]; discriminate H.
Defined.

(* ================================================================== *)
(** ** What each checker decides *)

Lemma rangeSlice_pass_iff {A : Type} (bad : A -> bool) (format : string)
    (slice : list A) (i : nat) :
  rangeSlice bad format i slice = pass <-> Forall (fun x => bad x = false) slice.
Proof.
  revert i. induction slice as [|elem rest IH]; intros i; simpl.
  - split; [constructor | reflexivity].
  - destruct (bad elem) eqn:Hbad.
    + split; [discriminate | intros H; inversion H; congruence].
    + rewrite IH. split; [now constructor | intros H; now inversion H].
Qed.

(** The slice loop passes exactly when every element meets [P], the
    negation of its test. *)
Lemma slice_passes {A : Type} (bad : A -> bool) (P : A -> Prop)
    (format : string) (slice : list A) :
  (forall x, bad x = false <-> P x) ->
  Returns (rangeSlice bad format 0 slice) = Returns pass <-> Forall P slice.
Proof.
  intros HP. split.
  - intros H. injection H as H. apply rangeSlice_pass_iff in H.
    eapply Forall_impl; [|exact H]. intros x. apply HP.
  - intros H. f_equal. apply rangeSlice_pass_iff.
    eapply Forall_impl; [|exact H]. intros x. apply HP.
Qed.

(** The slice loop never answers with the syntax error. *)
Lemma slice_never_syntax {A : Type} (bad : A -> bool) (format : string)
    (slice : list A) :
  Returns (rangeSlice bad format 0 slice)
  <> Returns (reject ErrInvalidValidatorSyntax).
Proof.
  destruct (rangeSlice_cases bad format slice 0) as [H | [j H]]; rewrite H;
    discriminate.
Qed.

(** Closes one direction of the two questions asked of a verdict (does
    it pass, is it the syntax error) once the comparisons are decided;
    [n] is the parsed parameter. *)
Ltac settle n :=
  let H := fresh "H" in
  intros H;
  solve
    [ discriminate H
    | reflexivity
    | exists n; split; [reflexivity | first [lia | assumption]]
    | let n' := fresh "n" in let Heq := fresh "Heq" in
      destruct H as (n' & Heq & H);
      first [ discriminate Heq
            | injection Heq as <-;
              first [reflexivity | exfalso; lia | contradiction] ]
    | left; simpl; discriminate
    | right; first [exact I | reflexivity]
    | destruct H as [H | H];
      [ now contradict H | first [contradiction | discriminate H | reflexivity] ] ].

(** Settles both questions for a verdict computed by comparisons. *)
Ltac decide_verdict n :=
  repeat match goal with
    | |- context [?a <=? ?b] => destruct (Z.leb_spec a b)
    | |- context [?a <? ?b] => destruct (Z.ltb_spec a b)
    | |- context [?a =? ?b] => destruct (Z.eqb_spec a b)
    end;
  simpl; split; split; settle n.

(** The meaning of a test of the slice loop. *)
Ltac decide_test :=
  intros;
  repeat match goal with
    | |- context [?a <=? ?b] => destruct (Z.leb_spec a b)
    | |- context [?a <? ?b] => destruct (Z.ltb_spec a b)
    | |- context [?a =? ?b] => destruct (Z.eqb_spec a b)
    end;
  simpl; split; intros; solve [discriminate | reflexivity | lia].

(** Settles them for a slice, given the meaning [P] of the loop's test. *)
Ltac decide_slice n P :=
  let HP := fresh "HP" in
  let Hto := fresh "Hto" in
  let Hfrom := fresh "Hfrom" in
  match goal with
  | |- context [rangeSlice ?bad ?format _ ?slice] =>
      assert (HP : forall x, bad x = false <-> P x) by decide_test;
      pose proof (slice_passes bad P format slice HP) as [Hto Hfrom]
  end;
  split;
  [ split;
    [ intros H; exists n; split; [reflexivity | auto]
    | intros (n' & Heq & H); injection Heq as <-; auto ]
  | split;
    [ intros H; now apply slice_never_syntax in H
    | intros [H | H]; [now contradict H | first [contradiction | discriminate H]] ] ].

(** The len checker on a field declared with one of the supported
    types.  It passes exactly when the parameter parses as an integer
    [n] and the text, or every text of the slice, is [n] bytes long (so
    never for a negative [n], unless the slice is empty); its answer is
    the syntax error exactly when the parameter fails to parse or the
    field is no [string] and no [[]string]. *)
Theorem validateLen_decides (d : reflect.Dynamic) (value : string) :
  let v := reflect.mkValue None d in
  (validateLen v value = Returns pass <->
   exists n, strconv.Atoi value = (n, None) /\
     match d with
     | reflect.dyn_string s => len s = n
     | reflect.dyn_strings slice => Forall (fun elem => len elem = n) slice
     | _ => False
     end) /\
  (validateLen v value = Returns (reject ErrInvalidValidatorSyntax) <->
   snd (strconv.Atoi value) <> None \/
   match d with
   | reflect.dyn_string _ | reflect.dyn_strings _ => False
   | _ => True
   end).
Proof.
  cbv zeta. unfold validateLen.
  destruct (strconv.Atoi value) as [n [e|]]; [decide_verdict n|].
  destruct d as [s|m|slice|slice|]; cbn [reflect.Interface reflect.content
    reflect.String_ reflect.boxed snd]; try decide_verdict n.
  decide_slice n (fun elem => len elem = n).
Qed.

(** The min checker: it passes exactly when the parameter parses as [n]
    and the length of the text, the integer, or every element of the
    slice, is at least [n]; the syntax error is its answer exactly when
    the parameter fails to parse or the type is not supported. *)
Theorem validateMin_decides (d : reflect.Dynamic) (value : string) :
  let v := reflect.mkValue None d in
  (validateMin v value = Returns pass <->
   exists n, strconv.Atoi value = (n, None) /\
     match d with
     | reflect.dyn_string s => n <= len s
     | reflect.dyn_int m => n <= m
     | reflect.dyn_strings slice => Forall (fun elem => n <= len elem) slice
     | reflect.dyn_ints slice => Forall (fun elem => n <= elem) slice
     | reflect.dyn_other => False
     end) /\
  (validateMin v value = Returns (reject ErrInvalidValidatorSyntax) <->
   snd (strconv.Atoi value) <> None \/ d = reflect.dyn_other).
Proof.
  cbv zeta. unfold validateMin.
  destruct (strconv.Atoi value) as [n [e|]]; [decide_verdict n|].
  destruct d as [s|m|slice|slice|]; cbn [reflect.Interface reflect.content
    reflect.String_ reflect.Int reflect.boxed bind snd]; try decide_verdict n.
  - decide_slice n (fun elem => n <= len elem).
  - decide_slice n (fun elem => n <= elem).
Qed.

(** The max checker, likewise with "at most". *)
Theorem validateMax_decides (d : reflect.Dynamic) (value : string) :
  let v := reflect.mkValue None d in
  (validateMax v value = Returns pass <->
   exists n, strconv.Atoi value = (n, None) /\
     match d with
     | reflect.dyn_string s => len s <= n
     | reflect.dyn_int m => m <= n
     | reflect.dyn_strings slice => Forall (fun elem => len elem <= n) slice
     | reflect.dyn_ints slice => Forall (fun elem => elem <= n) slice
     | reflect.dyn_other => False
     end) /\
  (validateMax v value = Returns (reject ErrInvalidValidatorSyntax) <->
   snd (strconv.Atoi value) <> None \/ d = reflect.dyn_other).
Proof.
  cbv zeta. unfold validateMax.
  destruct (strconv.Atoi value) as [n [e|]]; [decide_verdict n|].
  destruct d as [s|m|slice|slice|]; cbn [reflect.Interface reflect.content
    reflect.String_ reflect.Int reflect.boxed bind snd]; try decide_verdict n.
  - decide_slice n (fun elem => len elem <= n).
  - decide_slice n (fun elem => elem <= n).
Qed.

Lemma validateBetween_bad_second_limit_witness :
  validateBetween (reflect.mkValue None (reflect.dyn_int 3)) "1,5x"
  = Returns (reject ErrInvalidValidatorSyntax).
Proof.
  apply (validateBetween_bad_second_limit _ "1" "5x" 0 strconv.ErrSyntax);
    reflexivity.
Defined.

(** The between checker, for a parameter with two parts at least whose
    first part parses as [lo]: it passes exactly when the second part
    parses as [hi] and the length of the text, the integer, or every
    element of the slice, lies between [lo] and [hi], bounds included
    (so never when [hi < lo], unless the slice is empty); the syntax
    error is its answer exactly when the second part fails to parse or
    the type is not supported. *)
Theorem validateBetween_decides (d : reflect.Dynamic)
    (value limit0 limit1 : string) (more : list string) (lo : Z) :
  strings.Split value "," = limit0 :: limit1 :: more ->
  strconv.Atoi limit0 = (lo, None) ->
  let v := reflect.mkValue None d in
  (validateBetween v value = Returns pass <->
   exists hi, strconv.Atoi limit1 = (hi, None) /\
     match d with
     | reflect.dyn_string s => lo <= len s <= hi
     | reflect.dyn_int m => lo <= m <= hi
     | reflect.dyn_strings slice => Forall (fun elem => lo <= len elem <= hi) slice
     | reflect.dyn_ints slice => Forall (fun elem => lo <= elem <= hi) slice
     | reflect.dyn_other => False
     end) /\
  (validateBetween v value = Returns (reject ErrInvalidValidatorSyntax) <->
   snd (strconv.Atoi limit1) <> None \/ d = reflect.dyn_other).
Proof.
  intros Hsplit Hlo. cbv zeta. unfold validateBetween.
  rewrite Hsplit. cbn [index nth_error bind]. rewrite Hlo.
  destruct (strconv.Atoi limit1) as [hi [e|]]; [decide_verdict hi|].
  destruct d as [s|m|slice|slice|]; cbn [reflect.Interface reflect.content
    reflect.String_ reflect.Int reflect.boxed bind snd]; try decide_verdict hi.
  - decide_slice hi (fun elem => lo <= len elem <= hi).
  - decide_slice hi (fun elem => lo <= elem <= hi).
Qed.

Lemma validateBetween_decides_witness :
  let v := reflect.mkValue None (reflect.dyn_ints [3; 5; 4]) in
  (validateBetween v "3,5" = Returns pass <->
   exists hi, strconv.Atoi "5" = (hi, None) /\
              Forall (fun elem => 3 <= elem <= hi) [3; 5; 4]) /\
  (validateBetween v "3,5" = Returns (reject ErrInvalidValidatorSyntax) <->
   snd (strconv.Atoi "5") <> None \/ reflect.dyn_ints [3; 5; 4] = reflect.dyn_other).
Proof.
  apply (validateBetween_decides (reflect.dyn_ints [3; 5; 4]) "3,5" "3" "5" [] 3);
    reflexivity.
Defined.

(** Closes [between passes <-> min passes /\ max passes] for verdicts
    computed by comparisons. *)
Ltac both_bounds :=
  repeat match goal with
    | |- context [?a <=? ?b] => destruct (Z.leb_spec a b)
    | |- context [?a <? ?b] => destruct (Z.ltb_spec a b)
    end;
  let R := fresh "R" in
  let R' := fresh "R" in
  simpl; split;
  [ intros R; first [discriminate R | now split]
  | intros [R R']; first [discriminate R | discriminate R' | reflexivity] ].

(** [between:lo,hi] is [min:lo] together with [max:hi]: for every value
    of a field, of any type, declared as such or held in an interface,
    the between checker passes exactly when the min checker passes on
    the first limit and the max checker on the second, provided the
    first limit parses. *)
Theorem between_is_min_and_max (v : reflect.Value)
    (value limit0 limit1 : string) (more : list string) (lo : Z) :
  strings.Split value "," = limit0 :: limit1 :: more ->
  strconv.Atoi limit0 = (lo, None) ->
  (validateBetween v value = Returns pass <->
   validateMin v limit0 = Returns pass /\ validateMax v limit1 = Returns pass).
Proof.
  intros Hsplit Hlo. unfold validateBetween, validateMin, validateMax.
  rewrite Hsplit. cbn [index nth_error bind]. rewrite Hlo.
  destruct (strconv.Atoi limit1) as [hi [e|]]; [split; [discriminate | now intros [_ H]]|].
  destruct v as [boxed [s|m|slice|slice|]]; cbn [reflect.Interface reflect.content].
  - both_bounds.
  - destruct boxed as [t|]; cbn [reflect.Int reflect.boxed reflect.content bind];
      [split; [discriminate | now intros [H _]] | both_bounds].
  - rewrite (slice_passes _ (fun elem => lo <= len elem <= hi)) by decide_test.
    rewrite (slice_passes _ (fun elem => lo <= len elem)) by decide_test.
    rewrite (slice_passes _ (fun elem => len elem <= hi)) by decide_test.
    rewrite !Forall_forall. firstorder.
  - rewrite (slice_passes _ (fun elem => lo <= elem <= hi)) by decide_test.
    rewrite (slice_passes _ (fun elem => lo <= elem)) by decide_test.
    rewrite (slice_passes _ (fun elem => elem <= hi)) by decide_test.
    rewrite !Forall_forall. firstorder.
  - split; [discriminate | now intros [H _]].
Qed.

Lemma between_is_min_and_max_witness :
  let v := reflect.mkValue None (reflect.dyn_string "asdfasdf") in
  validateBetween v "3,17" = Returns pass <->
  validateMin v "3" = Returns pass /\ validateMax v "17" = Returns pass.
Proof.
  apply (between_is_min_and_max _ "3,17" "3" "17" [] 3); reflexivity.
Defined.

(* ================================================================== *)
(** ** What the in checker decides *)

Lemma len_zero (value : string) : (len value =? 0) = true <-> value = "".
Proof.
  unfold len. destruct value as [|c rest]; simpl.
  - split; reflexivity.
  - split; discriminate.
Qed.

Lemma hasKey_In (m : list string) (key : string) :
  hasKey m key = true <-> In key m.
Proof.
  unfold hasKey. rewrite existsb_exists. split.
  - intros (k & Hk & Heq). apply String.eqb_eq in Heq. now subst.
  - intros H. exists key. split; [exact H | apply String.eqb_refl].
Qed.

Lemma In_insertKey (m : list string) (key k : string) :
  In k (insertKey m key) <-> In k m \/ k = key.
Proof.
  unfold insertKey. destruct (existsb (String.eqb key) m) eqn:Hin.
  - apply (hasKey_In m key) in Hin. split; [tauto|].
    intros [H | ->]; assumption.
  - rewrite in_app_iff. simpl. intuition congruence.
Qed.

(** The token set holds exactly the tokens. *)
Lemma In_makeTokensSet (tokens : list string) (k : string) :
  In k (makeTokensSet tokens) <-> In k tokens.
Proof.
  unfold makeTokensSet.
  assert (H : forall m, In k (fold_left insertKey tokens m) <-> In k m \/ In k tokens).
  { induction tokens as [|token rest IH]; intros m; simpl; [tauto|].
    rewrite IH, In_insertKey. intuition congruence. }
  rewrite H. simpl. tauto.
Qed.

(** A fair order visits exactly the tokens. *)
Lemma In_visited (ord : MapOrder) (tokens : list string) (k : string) :
  fair ord ->
  In k (ord (makeTokensSet tokens)) <-> In k tokens.
Proof.
  intros Hord. split.
  - intros H. apply In_makeTokensSet.
    exact (Permutation_in k (Hord _) H).
  - intros H. apply In_makeTokensSet in H.
    exact (Permutation_in k (Permutation_sym (Hord _)) H).
Qed.

(** The in checker on texts.  On a field declared [string] it passes
    exactly when the parameter is not empty and the text is one of its
    comma-separated tokens, compared byte by byte; on a [[]string]
    exactly when, besides, every element is one of the tokens.  The
    order of the map loop plays no part, and the syntax error is never
    the answer. *)
Theorem validateIn_texts_decides (ord : MapOrder) (value : string) :
  (forall s,
     validateIn ord (reflect.mkValue None (reflect.dyn_string s)) value = Returns pass <->
     value <> "" /\ In s (strings.Split value ",")) /\
  (forall boxed slice,
     validateIn ord (reflect.mkValue boxed (reflect.dyn_strings slice)) value = Returns pass <->
     value <> "" /\ Forall (fun elem => In elem (strings.Split value ",")) slice) /\
  (forall boxed s slice,
     validateIn ord (reflect.mkValue boxed (reflect.dyn_string s)) value
       <> Returns (reject ErrInvalidValidatorSyntax) /\
     validateIn ord (reflect.mkValue boxed (reflect.dyn_strings slice)) value
       <> Returns (reject ErrInvalidValidatorSyntax)).
Proof.
  unfold validateIn.
  destruct (len value =? 0) eqn:Hlen.
  - apply len_zero in Hlen.
    repeat split; try discriminate; intros H; try discriminate H; now destruct H.
  - assert (Hne : value <> "").
    { intros H. apply len_zero in H. congruence. }
    cbn [reflect.Interface reflect.content reflect.String_ reflect.boxed].
    repeat split; trivial.
    + destruct (hasKey _ s) eqn:Hs; [|discriminate].
      apply (proj1 (hasKey_In _ _)) in Hs.
      exact (proj1 (In_makeTokensSet _ _) Hs).
    + intros [_ Hs]. apply (proj2 (In_makeTokensSet _ _)) in Hs.
      apply (proj2 (hasKey_In _ _)) in Hs. now rewrite Hs.
    + rewrite slice_passes in H; [exact H|].
      intros x. rewrite negb_false_iff, hasKey_In. apply In_makeTokensSet.
    + intros [_ Hs]. rewrite slice_passes; [exact Hs|].
      intros x. rewrite negb_false_iff, hasKey_In. apply In_makeTokensSet.
    + destruct (hasKey _ _); discriminate.
    + apply slice_never_syntax.
Qed.

Lemma forallb_false_exists {A : Type} (p : A -> bool) (l : list A) :
  forallb p l = false <-> exists x, In x l /\ p x = false.
Proof.
  induction l as [|a l IH]; simpl.
  - split; [discriminate | now intros (x & [] & _)].
  - rewrite andb_false_iff, IH. split.
    + intros [H | (x & Hx & Hp)]; [now exists a; auto | exists x; auto].
    + intros (x & [<- | Hx] & Hp); [now left | right; now exists x].
Qed.

(** The in checker on a [[]int], under every order the map loop may
    take.  It passes exactly when the parameter is not empty, every
    token parses as an integer and every element is the value of some
    token; its answer is the syntax error exactly when the parameter is
    not empty and some token fails to parse, whatever the elements are
    (an empty slice included). *)
Theorem validateIn_ints_decides (ord : MapOrder) (boxed : option string)
    (slice : list Z) (value : string) :
  fair ord ->
  let v := reflect.mkValue boxed (reflect.dyn_ints slice) in
  let tokens := strings.Split value "," in
  (validateIn ord v value = Returns pass <->
   value <> "" /\
   (forall token, In token tokens -> parses token = true) /\
   Forall (fun elem => exists token, In token tokens /\ fst (strconv.Atoi token) = elem)
          slice) /\
  (validateIn ord v value = Returns (reject ErrInvalidValidatorSyntax) <->
   value <> "" /\ exists token, In token tokens /\ parses token = false).
Proof.
  intros Hord. cbv zeta. unfold validateIn.
  destruct (len value =? 0) eqn:Hlen.
  { apply len_zero in Hlen.
    split; split; intros H; try discriminate H; now destruct H. }
  assert (Hne : value <> "").
  { intros H. apply len_zero in H. congruence. }
  cbn [reflect.Interface reflect.content].
  set (tokens := strings.Split value ",").
  pose proof (makeTokensSetInt_spec (ord (makeTokensSet tokens)) []) as Hspec.
  destruct (makeTokensSetInt _ _) as [m|].
  - destruct Hspec as [Hall Hm]. rewrite forallb_forall in Hall.
    assert (Hparse : forall token, In token tokens -> parses token = true).
    { intros token Htoken. apply Hall. now apply In_visited. }
    assert (Hbad : forall x, negb (hasInt m x) = false <->
              exists token, In token tokens /\ fst (strconv.Atoi token) = x).
    { intros x. rewrite negb_false_iff, Hm. simpl. rewrite existsb_exists. split.
      - intros (k & Hk & Heq). exists k. apply Z.eqb_eq in Heq.
        split; [now apply (In_visited ord tokens k Hord) | now symmetry].
      - intros (k & Hk & Heq). exists k.
        split; [now apply In_visited | apply Z.eqb_eq; now symmetry]. }
    split; split.
    + intros H. rewrite (slice_passes _ _ _ _ Hbad) in H. auto.
    + intros (_ & _ & H). now rewrite (slice_passes _ _ _ _ Hbad).
    + intros H. now apply slice_never_syntax in H.
    + intros (_ & token & Htoken & Hno). rewrite (Hparse token Htoken) in Hno.
      discriminate.
  - apply forallb_false_exists in Hspec as (k & Hk & Hno).
    apply (In_visited ord tokens k Hord) in Hk.
    split; split.
    + discriminate.
    + intros (_ & Hparse & _). rewrite (Hparse k Hk) in Hno. discriminate.
    + intros _. split; [exact Hne | now exists k].
    + reflexivity.
Qed.

Lemma validateIn_ints_decides_witness :
  let v := reflect.mkValue None (reflect.dyn_ints [666; 666; 777]) in
  let tokens := strings.Split "666,777,999" "," in
  (validateIn reversed v "666,777,999" = Returns pass <->
   "666,777,999" <> "" /\
   (forall token, In token tokens -> parses token = true) /\
   Forall (fun elem => exists token, In token tokens /\ fst (strconv.Atoi token) = elem)
          [666; 666; 777]) /\
  (validateIn reversed v "666,777,999" = Returns (reject ErrInvalidValidatorSyntax) <->
   "666,777,999" <> "" /\ exists token, In token tokens /\ parses token = false).
Proof.
  apply (validateIn_ints_decides reversed None [666; 666; 777] "666,777,999").
  intros keys. apply Permutation_sym, Permutation_rev.
Defined.

(** A pass of the [int] loop has met a key that parses to the value. *)
Lemma inIntLoop_pass (n : Z) (keys : list string) :
  inIntLoop (reflect.mkValue None (reflect.dyn_int n)) keys = Returns pass ->
  exists key, In key keys /\ strconv.Atoi key = (n, None).
Proof.
  induction keys as [|key rest IH]; simpl; [discriminate|].
  destruct (strconv.Atoi key) as [val [e|]] eqn:Hkey; [discriminate|].
  destruct (Z.eqb_spec val n) as [->|_].
  - intros _. exists key. auto.
  - intros H. destruct (IH H) as (k & Hk & Hn). exists k. auto.
Qed.

(** The in checker on a field declared [int], under every order the map
    loop may take.  When it passes, the parameter is not empty and some
    token parses to the integer; and when every token parses, a token
    with the value of the integer makes it pass. *)
Theorem validateIn_int_decides (ord : MapOrder) (n : Z) (value : string) :
  fair ord ->
  let v := reflect.mkValue None (reflect.dyn_int n) in
  let tokens := strings.Split value "," in
  (validateIn ord v value = Returns pass ->
   value <> "" /\ exists token, In token tokens /\ strconv.Atoi token = (n, None)) /\
  (value <> "" ->
   (forall token, In token tokens -> parses token = true) ->
   (exists token, In token tokens /\ fst (strconv.Atoi token) = n) ->
   validateIn ord v value = Returns pass).
Proof.
  intros Hord. cbv zeta. unfold validateIn.
  destruct (len value =? 0) eqn:Hlen.
  { apply len_zero in Hlen. split; [discriminate | now intros H]. }
  assert (Hne : value <> "").
  { intros H. apply len_zero in H. congruence. }
  cbn [reflect.Interface reflect.content].
  set (tokens := strings.Split value ","). split.
  - intros H. split; [exact Hne|].
    destruct (inIntLoop_pass _ _ H) as (k & Hk & Hn).
    exists k. split; [now apply (In_visited ord tokens k Hord) | exact Hn].
  - intros _ Hparse (k & Hk & Hn).
    rewrite inIntLoop_all_parse.
    + apply (In_visited ord tokens k Hord) in Hk.
      destruct (ord (makeTokensSet tokens)) as [|key keys] eqn:Hkeys; [now destruct Hk|].
      cbn [reflect.Int reflect.boxed reflect.content bind].
      replace (existsb _ (key :: keys)) with true; [reflexivity|].
      symmetry. apply existsb_exists. exists k.
      split; [exact Hk | now apply Z.eqb_eq].
    + apply forallb_forall. intros k' Hk'. apply Hparse.
      now apply (In_visited ord tokens k' Hord).
Qed.

Lemma validateIn_int_decides_witness :
  let v := reflect.mkValue None (reflect.dyn_int (-25)) in
  let tokens := strings.Split "-20,-25,-30" "," in
  (validateIn reversed v "-20,-25,-30" = Returns pass ->
   "-20,-25,-30" <> "" /\
   exists token, In token tokens /\ strconv.Atoi token = (-25, None)) /\
  ("-20,-25,-30" <> "" ->
   (forall token, In token tokens -> parses token = true) ->
   (exists token, In token tokens /\ fst (strconv.Atoi token) = -25) ->
   validateIn reversed v "-20,-25,-30" = Returns pass).
Proof.
  apply (validateIn_int_decides reversed (-25) "-20,-25,-30").
  intros keys. apply Permutation_sym, Permutation_rev.
Defined.

(* ================================================================== *)
(** ** Slices: the first failing element *)






(* ================================================================== *)
(** ** Validate as a whole *)

Lemma Validate_any_order_witness :
  let record := value reflect.Struct
                  [tagged "InInt" "in:20,25,30" None (reflect.dyn_int 25);
                   tagged "IntIn" "in:666,777,oops" None (reflect.dyn_ints [666; 777])] in
  Validate (fun _ => stored) record = Validate (fun _ => reversed) record.
Proof.
  intros record.
  apply (Validate_any_order (fun _ => stored) (fun _ => reversed) record).
  - intros i keys. apply Permutation_refl.
  - intros i keys. apply Permutation_sym, Permutation_rev.
  - intros f [<- | [<- | []]] tagValue value n Htag Hsplit Hint.
    + injection Htag as <-. injection Hsplit as <-. reflexivity.
    + discriminate Hint.
Defined.

Lemma Validate_total_witness :
  exists r,
    Validate (fun _ => stored)
      (value reflect.Struct
         [tagged "A" "between:1,5" None (reflect.dyn_int 3);
          tagged "B" "min:x" (Some "interface {}") (reflect.dyn_strings ["a"])])
    = Returns r.
Proof.
  apply (Validate_total (fun _ => stored) reflect.Struct).
  intros f [<- | [<- | []]]; split.
  - reflexivity.
  - intros tagValue value Htag Hsplit.
    injection Htag as <-. injection Hsplit as <-. reflexivity.
  - intros n Hint. discriminate Hint.
  - intros tagValue value Htag Hsplit.
    injection Htag as <-. discriminate Hsplit.
Defined.

(** A field adds nothing exactly when it is accepted. *)
Lemma fieldBody_accepted (ord : MapOrder) (f : Field) :
  fieldBody ord f [] = Returns (Continue []) <-> accepted ord f.
Proof.
  unfold fieldBody, accepted. split.
  - destruct (reflect.Lookup _ _) as [tagValue|]; [|now left].
    destruct (reflect.IsExported _); simpl; [|discriminate].
    destruct (strings.Split tagValue ":") as [|rule0 [|rule1 [|more rule]]] eqn:Hsplit;
      try discriminate.
    destruct (validators ord rule0) as [validator|] eqn:Hv; [|discriminate].
    destruct (validator (val f) rule1) as [r|p] eqn:Hr; simpl; [|discriminate].
    destruct (checker_wellFormed _ _ _ _ _ _ Hv Hr) as [-> | [e ->]]; simpl;
      [|discriminate].
    intros _. right. exists tagValue, rule0, rule1, validator.
    repeat split; trivial.
  - intros [-> | (tagValue & name & param & validator & -> & -> & -> & -> & Hr)];
      [reflexivity|].
    simpl. now rewrite Hr.
Qed.

Lemma errorsOf_aggregate (vs : ValidationErrors) : errorsOf (aggregate vs) = vs.
Proof. now destruct vs. Qed.

Lemma validateFields_nil_iff (rt : Schedule) (fields : list Field) :
  forall i,
    validateFields rt i fields [] = Returns None <->
    Forall (fun jf => accepted (rt (fst jf)) (snd jf)) (indexed i fields).
Proof.
  induction fields as [|f rest IH]; intros i.
  - simpl. split; [constructor | reflexivity].
  - change (indexed i (f :: rest)) with ((i, f) :: indexed (S i) rest).
    cbn [validateFields].
    destruct (fieldBody_cases (rt i) f) as [[p Hp] | [c Hc]].
    + rewrite Hp. simpl. split; [discriminate|].
      intros H. inversion H as [|jf l Hacc _]; subst.
      apply fieldBody_accepted in Hacc. simpl in Hacc. rewrite Hp in Hacc.
      discriminate.
    + rewrite Hc. simpl. destruct c as [ve|]; simpl.
      * split.
        -- intros H. destruct (validateFields_returns _ _ _ _ _ H) as (cs & _ & Hr).
           discriminate Hr.
        -- intros H. inversion H as [|jf l Hacc _]; subst.
           apply fieldBody_accepted in Hacc. simpl in Hacc. rewrite Hc in Hacc.
           discriminate.
      * rewrite IH. split.
        -- intros H. constructor; [|exact H].
           apply fieldBody_accepted. simpl. now rewrite Hc.
        -- intros H. now inversion H.
Qed.

(** [Validate] returns nil for a struct exactly when every field is
    accepted: it has no tag, or it is exported, its tag is a rule of a
    registered checker and that checker passes.  So nil is never
    returned past a panic, an unexported tagged field, a malformed tag
    or a failed check. *)
Theorem Validate_nil_iff (rt : Schedule) (fields : list Field) :
  Validate rt (value reflect.Struct fields) = Returns None <->
  Forall (fun jf => accepted (rt (fst jf)) (snd jf)) (indexed 0 fields).
Proof.
  unfold Validate. simpl. apply validateFields_nil_iff.
Qed.

(** The loop run on errors collected before: they come first in the
    result. *)
Lemma validateFields_from (rt : Schedule) (fields : list Field) :
  forall i vs0 r,
    validateFields rt i fields vs0 = Returns r ->
    forall vs, validateFields rt i fields (vs ++ vs0)
               = Returns (aggregate (vs ++ errorsOf r)).
Proof.
  induction fields as [|f rest IH]; intros i vs0 r H vs.
  - simpl in *. assert (r = aggregate vs0) as -> by (destruct vs0; simpl; congruence).
    rewrite errorsOf_aggregate. now destruct (vs ++ vs0).
  - cbn [validateFields] in *.
    destruct (fieldBody_cases (rt i) f) as [[p Hp] | [c Hc]].
    + rewrite Hp in H. discriminate.
    + rewrite Hc in *. simpl in *. rewrite <- app_assoc. now apply IH.
Qed.

Lemma validateFields_shift (rt : Schedule) (n : nat) (fields : list Field) :
  forall i vs,
    validateFields rt (n + i) fields vs = validateFields (shift n rt) i fields vs.
Proof.
  induction fields as [|f rest IH]; intros i vs; [reflexivity|].
  cbn [validateFields]. unfold shift at 1.
  destruct (fieldBody (rt (n + i)%nat) f vs) as [[vs'|err]|p]; simpl; trivial.
  rewrite <- IH. now rewrite Nat.add_succ_r.
Qed.

Lemma validateFields_app (rt : Schedule) (fields1 fields2 : list Field) :
  forall i vs r1,
    validateFields rt i fields1 vs = Returns r1 ->
    validateFields rt i (fields1 ++ fields2) vs
    = validateFields rt (List.length fields1 + i) fields2 (errorsOf r1).
Proof.
  induction fields1 as [|f rest IH]; intros i vs r1 H.
  - simpl in *. assert (r1 = aggregate vs) as -> by (destruct vs; simpl; congruence).
    now rewrite errorsOf_aggregate.
  - cbn [validateFields app List.length] in *.
    destruct (fieldBody_cases (rt i) f) as [[p Hp] | [c Hc]].
    + rewrite Hp in H. discriminate.
    + rewrite Hc in *. simpl in *. rewrite (IH _ _ _ H).
      now rewrite Nat.add_succ_r.
Qed.

(** The errors of a struct are the errors of its first fields followed
    by the errors of the fields after them: when [Validate] returns for
    two structs, it returns for the struct with the fields of both, and
    the aggregate is the two aggregates one after the other (nil when
    both are nil). *)
Theorem Validate_app (rt : Schedule) (fields1 fields2 : list Field)
    (r1 r2 : option error) :
  Validate rt (value reflect.Struct fields1) = Returns r1 ->
  Validate (shift (List.length fields1) rt) (value reflect.Struct fields2) = Returns r2 ->
  Validate rt (value reflect.Struct (fields1 ++ fields2))
  = Returns (aggregate (errorsOf r1 ++ errorsOf r2)).
Proof.
  unfold Validate. simpl. intros H1 H2.
  rewrite (validateFields_app _ _ _ _ _ _ H1), validateFields_shift.
  pose proof (validateFields_from _ _ _ _ _ H2 (errorsOf r1)) as H.
  now rewrite app_nil_r in H.
Qed.

Lemma Validate_app_witness :
  let fields1 := [tagged "Higher" "len:5" None (reflect.dyn_string "abcdef");
                  tagged "Ok" "min:1" None (reflect.dyn_int 2)] in
  let fields2 := [tagged "InD" "in:5-" None (reflect.dyn_int 12)] in
  Validate (fun _ => stored) (value reflect.Struct (fields1 ++ fields2))
  = Returns (Some (IsValidationErrors
                     [mkValidationError (New "lengths don't match");
                      mkValidationError ErrInvalidValidatorSyntax])).
Proof.
  intros fields1 fields2.
  apply (Validate_app (fun _ => stored) fields1 fields2
           (Some (IsValidationErrors [mkValidationError (New "lengths don't match")]))
           (Some (IsValidationErrors [mkValidationError ErrInvalidValidatorSyntax])));
    reflexivity.
Defined.

(* ================================================================== *)
(** ** Scalars held in an interface *)

(** An [int] held in a field of interface type: the type switch takes
    the [int] branch, and [v.Int()], called on a value of Kind
    [Interface], panics.  So min and max panic once the parameter
    parses, and between once its second limit parses. *)
Theorem int_in_interface_panics (t : string) (n bound : Z)
    (value limit0 limit1 : string) (more : list string) :
  let v := reflect.mkValue (Some t) (reflect.dyn_int n) in
  (strconv.Atoi value = (bound, None) ->
   validateMin v value = Panics (ValueError "reflect.Value.Int") /\
   validateMax v value = Panics (ValueError "reflect.Value.Int")) /\
  (strings.Split value "," = limit0 :: limit1 :: more ->
   strconv.Atoi limit1 = (bound, None) ->
   validateBetween v value = Panics (ValueError "reflect.Value.Int")).
Proof.
  cbv zeta. split.
  - intros Hvalue. unfold validateMin, validateMax. now rewrite Hvalue.
  - intros Hsplit Hlimit. unfold validateBetween.
    rewrite Hsplit. cbn [index nth_error bind].
    destruct (strconv.Atoi limit0) as [lo _]. now rewrite Hlimit.
Qed.

Lemma int_in_interface_panics_witness :
  let v := reflect.mkValue (Some "interface {}") (reflect.dyn_int 5) in
  (validateMin v "3" = Panics (ValueError "reflect.Value.Int") /\
   validateMax v "3" = Panics (ValueError "reflect.Value.Int")) /\
  validateBetween v "1,3" = Panics (ValueError "reflect.Value.Int").
Proof.
  intros v.
  pose proof (int_in_interface_panics "interface {}" 5 3 "3" "" "" []) as [Hminmax _].
  pose proof (int_in_interface_panics "interface {}" 5 3 "1,3" "1" "3" []) as [_ Hbetween].
  split; [apply Hminmax | apply Hbetween]; reflexivity.
Defined.

(** A text held in a field of interface type [t]: the type switch takes
    the [string] branch, but [v.String()], called on a value of Kind
    [Interface], yields the text ["<t Value>"] and not the text held.
    Every checker therefore answers as it does for a field declared
    [string] that holds ["<t Value>"]: the text held plays no part. *)
Theorem text_in_interface (ord : MapOrder) (t s value : string) :
  let held := reflect.mkValue (Some t) (reflect.dyn_string s) in
  let shown := reflect.mkValue None (reflect.dyn_string ("<" ++ t ++ " Value>")) in
  validateLen held value = validateLen shown value /\
  validateIn ord held value = validateIn ord shown value /\
  validateMin held value = validateMin shown value /\
  validateMax held value = validateMax shown value /\
  validateBetween held value = validateBetween shown value.
Proof.
  repeat split.
Qed.

(* ================================================================== *)
(** ** The message of an aggregate, piecewise *)

(** The [Error] string of an aggregate is built member by member: the
    string of two lists of errors put together is the two strings put
    together, the empty aggregate reads as the empty string, and an
    aggregate of one error reads exactly as that error. *)
Theorem ValidationErrors_Error_app (vs1 vs2 : ValidationErrors) (ve : ValidationError) :
  ValidationErrors_Error (vs1 ++ vs2)
    = (ValidationErrors_Error vs1 ++ ValidationErrors_Error vs2)%string /\
  ValidationErrors_Error [] = "" /\
  ValidationErrors_Error [ve] = ValidationError_Error ve.
Proof.
  repeat split.
  unfold ValidationErrors_Error at 1. rewrite fold_left_app.
  fold (ValidationErrors_Error vs1).
  rewrite ValidationErrors_Error_from.
  now rewrite <- ValidationErrors_Error_concat.
Qed.

(* ================================================================== *)
(** ** The cases of the package's test, run on the embedding *)

Section TestValidate.

Let rt : Schedule := fun _ => stored.
Let S := reflect.dyn_string.
Let I := reflect.dyn_int.
Let SS := reflect.dyn_strings.
Let II := reflect.dyn_ints.
Let count (r : Outcome (option error)) : option nat :=
  match r with
  | Returns (Some (IsValidationErrors vs)) => Some (List.length vs)
  | _ => None
  end.

Example invalid_struct :
  Validate rt (value reflect.Pointer []) = Returns (Some (Fundamental ErrNotStruct)) /\
  Validate rt (value reflect.Map []) = Returns (Some (Fundamental ErrNotStruct)) /\
  Validate rt (value reflect.KString []) = Returns (Some (Fundamental ErrNotStruct)).
Proof. repeat split. Qed.

Example valid_struct_with_no_fields :
  Validate rt (value reflect.Struct []) = Returns None.
Proof. reflexivity. Qed.

Example valid_struct_with_untagged_fields :
  Validate rt (value reflect.Struct
    [mkField (reflect.mkStructField "f1" "validation" []) (reflect.mkValue None (S ""));
     mkField (reflect.mkStructField "f2" "validation" []) (reflect.mkValue None (S ""))])
  = Returns None.
Proof. reflexivity. Qed.

Example valid_struct_with_unexported_fields :
  Validate rt (value reflect.Struct
    [mkField (reflect.mkStructField "foo" "validation" [("validate", "len:10")])
             (reflect.mkValue None (S ""))])
  = Returns (Some (IsValidationErrors [mkValidationError ErrValidateForUnexportedFields])).
Proof. reflexivity. Qed.

Example invalid_validator_syntax :
  Validate rt (value reflect.Struct [tagged "Foo" "len:abcdef" None (S "")])
  = Returns (Some (IsValidationErrors [mkValidationError ErrInvalidValidatorSyntax])).
Proof. reflexivity. Qed.

Example valid_struct_with_tagged_fields :
  Validate rt (value reflect.Struct
    [tagged "Len" "len:20" None (S "abcdefghjklmopqrstvu");
     tagged "LenZ" "len:0" None (S "");
     tagged "InInt" "in:20,25,30" None (I 25);
     tagged "InNeg" "in:-20,-25,-30" None (I (-25));
     tagged "InStr" "in:foo,bar" None (S "bar");
     tagged "MinInt" "min:10" None (I 15);
     tagged "MinIntNeg" "min:-10" None (I (-9));
     tagged "MinStr" "min:10" None (S "abcdefghjkl");
     tagged "MinStrNeg" "min:-1" None (S "abc");
     tagged "MaxInt" "max:20" None (I 16);
     tagged "MaxIntNeg" "max:-2" None (I (-3));
     tagged "MaxStr" "max:20" None (S "abcdefghjklmopqrst")])
  = Returns None.
Proof. reflexivity. Qed.

Example wrong_length :
  count (Validate rt (value reflect.Struct
    [tagged "Lower" "len:24" None (S "abcdef");
     tagged "Higher" "len:5" None (S "abcdef");
     tagged "Zero" "len:3" None (S "");
     tagged "BadSpec" "len:%12" None (S "abc");
     tagged "Negative" "len:-6" None (S "abcd")]))
  = Some 5%nat.
Proof. reflexivity. Qed.

Example wrong_in :
  count (Validate rt (value reflect.Struct
    [tagged "InA" "in:ab,cd" None (S "ef");
     tagged "InB" "in:aa,bb,cd,ee" None (S "ab");
     tagged "InC" "in:-1,-3,5,7" None (I 2);
     tagged "InD" "in:5-" None (I 12);
     tagged "InEmpty" "in:" None (S "")]))
  = Some 5%nat.
Proof. reflexivity. Qed.

Example wrong_min :
  count (Validate rt (value reflect.Struct
    [tagged "MinA" "min:12" None (S "ef");
     tagged "MinB" "min:-12" None (I (-22));
     tagged "MinC" "min:5-" None (I 12);
     tagged "MinD" "min:" None (I 11);
     tagged "MinE" "min:" None (S "abc")]))
  = Some 5%nat.
Proof. reflexivity. Qed.

Example wrong_max :
  count (Validate rt (value reflect.Struct
    [tagged "MaxA" "max:2" None (S "efgh");
     tagged "MaxB" "max:-7" None (S "ab");
     tagged "MaxC" "max:-12" None (I 22);
     tagged "MaxD" "max:5-" None (I 12);
     tagged "MaxE" "max:" None (I 11);
     tagged "MaxF" "max:" None (S "abc")]))
  = Some 6%nat.
Proof. reflexivity. Qed.

Example unexpected_validator_option :
  Validate rt (value reflect.Struct [tagged "Field" "unexpected_option:heh" None (S "efgh")])
  = Returns (Some (IsValidationErrors
                     [mkValidationError (New "Unexpected validator option")])).
Proof. reflexivity. Qed.

Example wrong_string_slice_in :
  Validate rt (value reflect.Struct
    [tagged "Field" "in:ab,ba,cd" None (SS ["ba"; "ka"; "ab"])])
  = Returns (Some (IsValidationErrors
      [mkValidationError (Errorf "The string on position %d is not allowed" 1)])).
Proof. reflexivity. Qed.

Example wrong_string_slice_max_min :
  count (Validate rt (value reflect.Struct
    [tagged "Longer" "max: 4" None (SS ["ba"; "kaasdf"; "ab"]);
     tagged "Shorter" "min: 4" None (SS ["ba"; "ka"; "ab"])]))
  = Some 2%nat.
Proof. reflexivity. Qed.

Example wrong_string_slice_len :
  Validate rt (value reflect.Struct
    [tagged "Len3" "len:3" None (SS ["baa"; "kaa"; "ab"])])
  = Returns (Some (IsValidationErrors
      [mkValidationError (Errorf "The string on position %d is shorter than allowed" 2)])).
Proof. reflexivity. Qed.

Example wrong_between_string :
  Validate rt (value reflect.Struct [tagged "Len3" "between:15,35" None (S "aba")])
  = Returns (Some (IsValidationErrors
                     [mkValidationError (New "String length is not allowed")])).
Proof. reflexivity. Qed.

Example valid_struct_with_slices :
  Validate rt (value reflect.Struct
    [tagged "Len3Str" "len:3" None (SS ["baa"; "kaa"; "abs"]);
     tagged "InStr" "in:abc,bac,bcc" None (SS ["abc"; "bac"; "bcc"; "bcc"]);
     tagged "MaxStr" "max:3" None (SS ["baa"; "ka"; "a"]);
     tagged "MinStr" "min:3" None (SS ["baa"; "kaaaa"; "absaasdfasdf"]);
     tagged "BetweenStr" "between:3,17" None (S "asdfasdf");
     tagged "IntIn" "in:666,777,999" None (II [666; 666; 777]);
     tagged "MaxInt" "max:-5" None (II [-123; -666; -10000]);
     tagged "MinInt" "min:3" None (II [3; 6; 1000])])
  = Returns None.
Proof. reflexivity. Qed.

End TestValidate.
